(** * design-context-server: discovery resolver and tool dispatcher

    A shallow embedding of [RegistryService] (registry.service.ts), of the
    decorator-driven [McpService] (mcp.service.ts, with
    [discoverAndRegisterTools], [transformArgs], [formatToolResult]) and of
    the earlier [McpService] that registers the five registry tools by
    hand, of the [McpTool] decorator and of the mock service the dispatcher
    is tested with, followed by the properties the design document states
    about them and by further properties read off the code.

    Conventions.
    - A JavaScript value is a [value]: the data of a call, a [BigInt] or
      a [Symbol].  An object is the finite map of its own properties over
      [Object.prototype], an array a list over [Array.prototype]; property
      lookup, the [in] operator and assignment follow that chain.  A number
      is kept as the string the engine prints for it.
    - A call that can throw returns an [outcome]; [try_catch] is the
      [try { } catch (error) { }] statement.
    - The disk is a [FileSystem]: what [statSync], [readdirSync] and
      [readFileSync] answer for each path, [None] standing for a thrown
      error.  [process.cwd()] is the parameter [workspaceRoot].
    - Strings are the UTF-8 bytes of well-formed JavaScript strings;
      [toLowerCase], the method names of [Array.prototype] and the
      wording of two of the engine's errors are taken from the engine
      ([Js.Host]), and the properties hold whatever they are. *)

From Stdlib Require Import ZArith Ascii String.
From stdpp Require Import base option list gmap strings pretty.

Set Default Proof Using "Type".
Local Open Scope string_scope.
Local Open Scope list_scope.

(** ** JavaScript strings and arrays of strings *)

Module Js.

(** [s.startsWith(t)] *)
Definition startsWith (s t : string) : bool := String.prefix t s.

(** [s.includes(t)]: [t] occurs in [s] as a contiguous substring. *)
Fixpoint includes (s t : string) : bool :=
  startsWith s t ||
  match s with
  | EmptyString => false
  | String _ s' => includes s' t
  end.

Definition lower_ascii (c : ascii) : ascii :=
  let n := nat_of_ascii c in
  if (65 <=? n)%nat && (n <=? 90)%nat then ascii_of_nat (n + 32) else c.

(** What the embedding takes from the engine as given:
    [String.prototype.toLowerCase], which folds by the engine's Unicode
    tables; the property names of [Array.prototype], which grow with the
    edition of the language and of which none is [content]; and the
    messages of the [TypeError]s that strict code raises on an assignment
    to a read-only property (by property name) and on a use of the [caller]
    and [arguments] of a function. *)
Class Host := {
  toLowerCase : string → string;
  Array_prototype_keys : list string;
  Array_prototype_content : "content" ∉ Array_prototype_keys;
  read_only_message : string → string;
  restricted_message : string
}.

(** What the engine's folding does on a string of ASCII characters: the
    letters A to Z are lowered, nothing else changes. *)
Fixpoint toLowerCase_ascii (s : string) : string :=
  match s with
  | EmptyString => EmptyString
  | String c s' => String (lower_ascii c) (toLowerCase_ascii s')
  end.

(** The property names of [Array.prototype] in ECMAScript 2023. *)
Definition Array_prototype_2023 : list string :=
  [ "length"; "constructor"; "at"; "concat"; "copyWithin"; "fill"; "find";
    "findIndex"; "findLast"; "findLastIndex"; "lastIndexOf"; "pop"; "push";
    "reverse"; "shift"; "unshift"; "slice"; "sort"; "splice"; "includes";
    "indexOf"; "join"; "keys"; "entries"; "values"; "forEach"; "filter";
    "flat"; "flatMap"; "map"; "every"; "some"; "reduce"; "reduceRight";
    "toLocaleString"; "toString"; "toReversed"; "toSorted"; "toSpliced";
    "with" ].

Definition Array_prototype_2023_content : "content" ∉ Array_prototype_2023.
Proof. apply (bool_decide_unpack _). vm_compute. exact I. Qed.

(** The engine, for the cases below, whose names are all ASCII: the
    array methods of ECMAScript 2023 and the messages of V8. *)
Definition ascii_host : Host :=
  {| toLowerCase := toLowerCase_ascii;
     Array_prototype_keys := Array_prototype_2023;
     Array_prototype_content := Array_prototype_2023_content;
     read_only_message k :=
       "Cannot assign to read only property '" +:+ k +:+ "' of object '#<Object>'";
     restricted_message :=
       "'caller', 'callee', and 'arguments' properties may not be accessed on strict mode functions or the arguments objects for calls to them" |}.

(** [xs.join(sep)] for an array of strings. *)
Fixpoint join (sep : string) (xs : list string) : string :=
  match xs with
  | [] => ""
  | [x] => x
  | x :: rest => x +:+ sep +:+ join sep rest
  end.

(** [xs.includes(x)] for an array of strings (strict equality). *)
Definition array_includes (xs : list string) (x : string) : bool :=
  bool_decide (x ∈ xs).

Fixpoint take (n : nat) (s : string) : string :=
  match n, s with
  | S n', String c s' => String c (take n' s')
  | _, _ => EmptyString
  end.

Fixpoint drop (n : nat) (s : string) : string :=
  match n, s with
  | S n', String _ s' => drop n' s'
  | _, _ => s
  end.

Definition endsWith (s t : string) : bool :=
  (String.length t <=? String.length s)%nat &&
  String.eqb (drop (String.length s - String.length t) s) t.

End Js.

(** ** node:path, POSIX flavour *)

Module Path.

(** Split at every ["/"]. *)
Fixpoint split (s : string) : list string :=
  match s with
  | EmptyString => [EmptyString]
  | String c s' =>
      if Ascii.eqb c "/" then EmptyString :: split s'
      else match split s' with
           | seg :: segs => String c seg :: segs
           | [] => [String c EmptyString]
           end
  end.

(** [normalizeString]: one pass over the segments; [stack] holds the
    segments kept so far, last one first. *)
Definition normalize_step (allowAboveRoot : bool)
    (stack : list string) (seg : string) : list string :=
  if String.eqb seg "" || String.eqb seg "." then stack
  else if String.eqb seg ".." then
    match stack with
    | top :: below =>
        if String.eqb top ".." then
          (if allowAboveRoot then seg :: stack else stack)
        else below
    | [] => if allowAboveRoot then [seg] else []
    end
  else seg :: stack.

Definition normalizeString (p : string) (allowAboveRoot : bool) : string :=
  Js.join "/" (rev (fold_left (normalize_step allowAboveRoot) (split p) [])).

(** [path.normalize] *)
Definition normalize (p : string) : string :=
  if String.eqb p "" then "."
  else
    let isAbsolute := Js.startsWith p "/" in
    let trailingSeparator := Js.endsWith p "/" in
    let q := normalizeString p (negb isAbsolute) in
    if String.eqb q "" then
      (if isAbsolute then "/" else if trailingSeparator then "./" else ".")
    else
      let q := if trailingSeparator then q +:+ "/" else q in
      if isAbsolute then "/" +:+ q else q.

(** [path.join(...args)] *)
Definition join (args : list string) : string :=
  match filter (λ a, a ≠ "") args with
  | [] => "."
  | parts => normalize (Js.join "/" parts)
  end.

Fixpoint lastIndexOfDot (s : string) : option nat :=
  match s with
  | EmptyString => None
  | String c s' =>
      match lastIndexOfDot s' with
      | Some i => Some (S i)
      | None => if Ascii.eqb c "." then Some 0 else None
      end
  end.

(** [path.extname(name)] for a single path component, which is what
    [readdirSync] returns: the text from the last ["."] on, and the empty
    string when there is no dot, when the only dot comes first, or when
    the name is [".."]. *)
Definition extname (name : string) : string :=
  match lastIndexOfDot name with
  | None => ""
  | Some 0 => ""
  | Some i => if String.eqb name ".." then "" else Js.drop i name
  end.

(** [path.basename(name, suffix)] for a single path component. *)
Definition basename (name suffix : string) : string :=
  if String.eqb suffix "" then name
  else if String.eqb suffix name then ""
  else if Js.endsWith name suffix
       then Js.take (String.length name - String.length suffix) name
       else name.

End Path.

(** ** node:fs, as seen through the calls the service makes *)

Module Fs.

Inductive FileType := RegularFile | Directory | OtherEntry.

#[global] Instance FileType_eq_dec : EqDecision FileType.
Proof. solve_decision. Defined.

(** [fs.Dirent]: [isFile()] and [isDirectory()] read [dirent_type], which
    describes the entry itself (a symbolic link is an [OtherEntry]). *)
Record Dirent := { dirent_name : string; dirent_type : FileType }.

Record FileSystem := {
  (** [statSync(p)]: the type of what [p] resolves to. *)
  fs_stat : string → option FileType;
  (** [readdirSync(p, { withFileTypes: true })], in enumeration order. *)
  fs_readdir : string → option (list Dirent);
  (** [readFileSync(p, 'utf8')] *)
  fs_readFile : string → option string
}.

Definition isFile (t : FileType) : bool := bool_decide (t = RegularFile).
Definition isDirectory (t : FileType) : bool := bool_decide (t = Directory).

Definition statSync (fs : FileSystem) (p : string) : option FileType :=
  fs_stat fs p.

(** [existsSync(p)] never throws and answers whether [p] resolves, that
    is, whether [statSync(p)] would succeed on the same disk. *)
Definition existsSync (fs : FileSystem) (p : string) : bool :=
  bool_decide (is_Some (fs_stat fs p)).

Definition readdirSyncWithFileTypes (fs : FileSystem) (p : string)
  : option (list Dirent) := fs_readdir fs p.

(** [readdirSync(p)]: the names only. *)
Definition readdirSync (fs : FileSystem) (p : string)
  : option (list string) := map dirent_name <$> fs_readdir fs p.

Definition readFileSync (fs : FileSystem) (p : string) : option string :=
  fs_readFile fs p.

(** A disk given by its directories (with their listings) and its regular
    files (with their contents). *)
Definition disk (dirs : list (string * list Dirent))
    (files : list (string * string)) : FileSystem :=
  let dmap : gmap string (list Dirent) := list_to_map dirs in
  let fmap : gmap string string := list_to_map files in
  {| fs_stat p :=
       match dmap !! p, fmap !! p with
       | Some _, _ => Some Directory
       | None, Some _ => Some RegularFile
       | None, None => None
       end;
     fs_readdir p := dmap !! p;
     fs_readFile p := fmap !! p |}.

End Fs.

(** ** registry.dto.ts and component.dto.ts *)

Module Dto.

(** Modelled from the spec: component.dto.ts is not among the sources.
    A component has a name, documentation file paths and optional example
    file paths; the callers test both path lists for absence, so both are
    optional here. *)
Record Component := {
  name : string;
  markdownFilePaths : option (list string);
  storyFilePaths : option (list string)
}.

Record Registry := {
  registry_name : string;
  installCommand : string;
  description : string;
  useCases : list string;
  components : option (list Component)
}.

Record ComponentConfiguration := {
  basePath : string;
  componentDir : string;
  componentSubDirs : list string;
  componentFileExtensions : list string;
  storiesDir : string;
  storiesSubDirs : list string;
  storiesFileExtensions : list string
}.

Record RegistryConfiguration := {
  config_name : string;
  config_installCommand : string;
  config_description : string;
  config_useCases : list string;
  config_components : ComponentConfiguration
}.

End Dto.

(** ** registry.service.ts

    The logger only writes; its calls are left out of this module. *)

Module RegistryService.
Import Dto Fs.

Section Host.
Context `{Js.Host}.

(** *** The catalog *)

Definition getAllRegistries (registries : list Registry) : list Registry :=
  registries.

Definition getRegistryByName (registries : list Registry) (n : string)
  : option Registry :=
  find (λ registry, bool_decide (registry_name registry = n)) registries.

Definition addRegistry (registries : list Registry) (registry : Registry)
  : list Registry := registries ++ [registry].

Definition getComponentsByRegistryName (registries : list Registry)
    (n : string) : list Component :=
  match getRegistryByName registries n with
  | None => []
  | Some registry => default [] (components registry)
  end.

Definition getComponentByName (registries : list Registry)
    (registryName componentName : string) : option Component :=
  match getRegistryByName registries registryName with
  | None => None
  | Some registry =>
      match components registry with
      | None => None
      | Some cs => find (λ component, bool_decide (name component = componentName)) cs
      end
  end.

(** [getFileContent]: the whole body sits in one [try]; a missing path and
    a failed read both give the empty string. *)
Definition getFileContent (fs : FileSystem) (filePath : string) : string :=
  if negb (existsSync fs filePath) then ""
  else match readFileSync fs filePath with
       | Some content => content
       | None => ""
       end.

(** *** Discovery *)

Definition getDirectories (fs : FileSystem) (dirPath : string) : list string :=
  match readdirSyncWithFileTypes fs dirPath with
  | Some dirents =>
      map dirent_name (filter (λ dirent, isDirectory (dirent_type dirent) = true) dirents)
  | None => []
  end.

(** The [for] loop of [findMarkdownFiles].  A [statSync] that throws leaves
    the loop through the enclosing [catch]; what was pushed so far stays. *)
Fixpoint findMarkdownFiles_loop (fs : FileSystem) (componentPath : string)
    (extensions : list string) (files : list string)
    (markdownFiles : list string) : list string :=
  match files with
  | [] => markdownFiles
  | file :: rest =>
      let filePath := Path.join [componentPath; file] in
      match statSync fs filePath with
      | None => markdownFiles
      | Some stat =>
          let markdownFiles :=
            if isFile stat && Js.array_includes extensions (Path.extname file)
            then markdownFiles ++ [filePath] else markdownFiles in
          findMarkdownFiles_loop fs componentPath extensions rest markdownFiles
      end
  end.

Definition findMarkdownFiles (fs : FileSystem) (componentPath : string)
    (extensions : list string) : list string :=
  match readdirSync fs componentPath with
  | None => []
  | Some files => findMarkdownFiles_loop fs componentPath extensions files []
  end.

Fixpoint findFilesInDirectory_loop (fs : FileSystem) (dirPath : string)
    (componentName : string) (extensions : list string)
    (items : list string) (files : list string) : list string :=
  match items with
  | [] => files
  | item :: rest =>
      let fullPath := Path.join [dirPath; item] in
      match statSync fs fullPath with
      | None => files
      | Some stat =>
          let files :=
            if isFile stat then
              let fileName := Path.basename item (Path.extname item) in
              let ext := Path.extname item in
              if Js.includes (Js.toLowerCase fileName) (Js.toLowerCase componentName)
                 && Js.array_includes extensions ext
              then files ++ [fullPath] else files
            else files in
          findFilesInDirectory_loop fs dirPath componentName extensions rest files
      end
  end.

Definition findFilesInDirectory (fs : FileSystem) (dirPath : string)
    (componentName : string) (extensions : list string) : list string :=
  match readdirSync fs dirPath with
  | None => []
  | Some items =>
      findFilesInDirectory_loop fs dirPath componentName extensions items []
  end.

Definition findFilesInDirectoryRoot (fs : FileSystem) (dirPath : string)
    (extensions : list string) : list string :=
  match readdirSyncWithFileTypes fs dirPath with
  | None => []
  | Some items =>
      fold_left
        (λ files item,
           if isFile (dirent_type item) then
             if existsb (λ ext, Js.includes (dirent_name item) ext) extensions
             then files ++ [Path.join [dirPath; dirent_name item]]
             else files
           else files)
        items []
  end.

(** One turn of the loop of [findStoryFiles] over [storiesSubDirs]. *)
Definition findStoryFiles_step (fs : FileSystem) (componentName : string)
    (config : ComponentConfiguration) (workspaceRoot : string)
    (storyFiles : list string) (storySubDir : string) : list string :=
  let storyBasePath :=
    Path.join [workspaceRoot; basePath config; storiesDir config; storySubDir] in
  if negb (existsSync fs storyBasePath) then storyFiles
  else
    let componentStoryPath := Path.join [storyBasePath; componentName] in
    if existsSync fs componentStoryPath
       && from_option isDirectory false (statSync fs componentStoryPath)
    then
      storyFiles ++
        findFilesInDirectoryRoot fs componentStoryPath (storiesFileExtensions config)
    else
      storyFiles ++
        findFilesInDirectory fs storyBasePath componentName
          (storiesFileExtensions config).

Definition findStoryFiles (fs : FileSystem) (componentName : string)
    (config : ComponentConfiguration) (workspaceRoot : string) : list string :=
  fold_left (findStoryFiles_step fs componentName config workspaceRoot)
    (storiesSubDirs config) [].

(** One turn of the inner loop of [discoverComponents], over the component
    folders of one sub-directory. *)
Definition discoverComponents_folder (fs : FileSystem)
    (config : ComponentConfiguration) (workspaceRoot : string)
    (componentBasePath : string)
    (components : list Component) (componentFolder : string)
  : list Component :=
  let componentName := componentFolder in
  let componentPath := Path.join [componentBasePath; componentFolder] in
  let markdownFilePaths :=
    findMarkdownFiles fs componentPath (componentFileExtensions config) in
  if (length markdownFilePaths =? 0)%nat then components
  else
    let storyFilePaths := findStoryFiles fs componentName config workspaceRoot in
    let component :=
      {| name := componentName;
         markdownFilePaths := Some markdownFilePaths;
         storyFilePaths :=
           if (0 <? length storyFilePaths)%nat then Some storyFilePaths else None |} in
    components ++ [component].

(** One turn of the outer loop, over [componentSubDirs]. *)
Definition discoverComponents_subDir (fs : FileSystem)
    (config : ComponentConfiguration) (workspaceRoot : string)
    (components : list Component) (subDir : string) : list Component :=
  let componentBasePath :=
    Path.join [workspaceRoot; basePath config; componentDir config; subDir] in
  if negb (existsSync fs componentBasePath) then components
  else
    let componentFolders := getDirectories fs componentBasePath in
    fold_left
      (discoverComponents_folder fs config workspaceRoot componentBasePath)
      componentFolders components.

Definition discoverComponents (fs : FileSystem)
    (config : ComponentConfiguration) (workspaceRoot : string)
  : list Component :=
  fold_left (discoverComponents_subDir fs config workspaceRoot)
    (componentSubDirs config) [].

(** [discoverAndRegisterComponents], run by the constructor on an empty
    catalog. *)
Definition discoverAndRegisterComponents (fs : FileSystem)
    (workspaceRoot : string) (registriesConfig : list RegistryConfiguration)
  : list Registry :=
  fold_left
    (λ registries registryConfig,
       let components :=
         discoverComponents fs (config_components registryConfig) workspaceRoot in
       addRegistry registries
         {| registry_name := config_name registryConfig;
            installCommand := config_installCommand registryConfig;
            description := config_description registryConfig;
            useCases := config_useCases registryConfig;
            components := Some components |})
    registriesConfig [].

(** *** The catalog, mutated by name *)

(** [xs.findIndex(f)]; [None] is [-1]. *)
Fixpoint findIndex {A : Type} (f : A → bool) (xs : list A) : option nat :=
  match xs with
  | [] => None
  | x :: rest => if f x then Some 0 else S <$> findIndex f rest
  end.

Definition updateRegistry (registries : list Registry) (n : string)
    (updatedRegistry : Registry) : list Registry :=
  match findIndex (λ registry, bool_decide (registry_name registry = n)) registries with
  | Some index => <[index := updatedRegistry]> registries
  | None => registries
  end.

Definition deleteRegistry (registries : list Registry) (n : string)
  : list Registry :=
  filter (λ registry, registry_name registry ≠ n) registries.

End Host.

End RegistryService.

(** ** A small disk: registry "Demo" *)

Module Demo.
Import Dto Fs.

#[local] Existing Instance Js.ascii_host.

Definition layout : ComponentConfiguration :=
  {| basePath := "src";
     componentDir := "components";
     componentSubDirs := ["ui"];
     componentFileExtensions := [".md"; ".mdx"];
     storiesDir := "stories";
     storiesSubDirs := ["basic"];
     storiesFileExtensions := [".stories.js"; ".stories.tsx"] |}.

Definition file (n : string) : Dirent := {| dirent_name := n; dirent_type := RegularFile |}.
Definition dir (n : string) : Dirent := {| dirent_name := n; dirent_type := Directory |}.

Definition fs : FileSystem :=
  disk
    [ ("/w/src/components/ui", [dir "Button"; dir "Empty"; file "index.ts"]);
      ("/w/src/components/ui/Button", [file "readme.md"; file "Button.tsx"]);
      ("/w/src/components/ui/Empty", [file "notes.txt"]);
      ("/w/src/stories/basic", [dir "Button"; file "Empty.stories.js"]);
      ("/w/src/stories/basic/Button", [file "Button.stories.js"; dir "assets"]) ]
    [ ("/w/src/components/ui/index.ts", "export {}");
      ("/w/src/components/ui/Button/readme.md", "# Button");
      ("/w/src/components/ui/Button/Button.tsx", "export const Button = 1");
      ("/w/src/components/ui/Empty/notes.txt", "todo");
      ("/w/src/stories/basic/Empty.stories.js", "export default {}");
      ("/w/src/stories/basic/Button/Button.stories.js", "export default {}") ].

Definition config : RegistryConfiguration :=
  {| config_name := "Demo";
     config_installCommand := "npm install demo";
     config_description := "A demo registry";
     config_useCases := ["Testing"];
     config_components := layout |}.

Definition catalog : list Registry :=
  RegistryService.discoverAndRegisterComponents fs "/w" [config].

End Demo.

(** ** JavaScript values, thrown errors, the logger *)

Module JsValue.

(** The values that reach the dispatcher: the data of a call's arguments
    and of a tool's result, with the two primitives that are not data
    ([BigInt], [Symbol]) and that a tool can return or throw.  A number is
    kept as [Number.prototype.toString] writes it ([NaN], [Infinity] and
    exponents as the engine prints them), so that printing it is exact. *)
#[warnings="-register-all"] Inductive value :=
| VUndefined
| VNull
| VBool (b : bool)
| VNumber (repr : string)
| VBigInt (n : Z)
| VStr (s : string)
| VSymbol (description : string)
| VArr (xs : list value)
| VObj (props : gmap string value).

(** The number an integer writes, for integers below [1e21] in magnitude,
    which print in full. *)
Definition VNum (n : Z) : value := VNumber (pretty n).

(** What [throw] can carry: an [Error] instance with its [name] and
    [message], or any other value. *)
Inductive thrown :=
| ErrorInstance (ename emessage : string)
| ThrownValue (v : value).

Inductive outcome (A : Type) :=
| Returned (a : A)
| Threw (error : thrown).
Arguments Returned {A} & a.
Arguments Threw {A} error.

#[global] Instance outcome_ret : MRet outcome := λ A a, Returned a.
#[global] Instance outcome_bind : MBind outcome := λ A B k m,
  match m with
  | Returned a => k a
  | Threw error => Threw error
  end.
#[global] Instance outcome_fmap : FMap outcome := λ A B f m,
  match m with
  | Returned a => Returned (f a)
  | Threw error => Threw error
  end.

Definition nl : string := String (ascii_of_nat 10) EmptyString.

(** [!v] is [negb (truthy v)]. *)
Definition truthy (v : value) : bool :=
  match v with
  | VUndefined | VNull => false
  | VBool b => b
  | VNumber repr => negb (String.eqb repr "0") && negb (String.eqb repr "NaN")
  | VBigInt n => negb (n =? 0)%Z
  | VStr s => negb (String.eqb s "")
  | VSymbol _ | VArr _ | VObj _ => true
  end.

(** [typeof v === 'object'] *)
Definition typeof_object (v : value) : bool :=
  match v with
  | VNull | VArr _ | VObj _ => true
  | _ => false
  end.

Definition isArray (v : value) : bool :=
  match v with VArr _ => true | _ => false end.

(** The number a string of decimal digits writes. *)
Fixpoint digits_value (s : string) (acc : nat) : option nat :=
  match s with
  | EmptyString => Some acc
  | String c s' =>
      let d := nat_of_ascii c in
      if (48 <=? d)%nat && (d <=? 57)%nat
      then digits_value s' (10 * acc + (d - 48))
      else None
  end.

(** The index an array of length [n] keeps under the property name [k]:
    [k] is the canonical decimal writing of a number below [n]. *)
Definition array_index (k : string) (n : nat) : option nat :=
  match digits_value k 0 with
  | Some i => if (i <? n)%nat && String.eqb (pretty i) k then Some i else None
  | None => None
  end.

(** [Object.keys(v)] for a non-null [v] of type ['object'], up to order. *)
Definition Object_keys (v : value) : list string :=
  match v with
  | VObj props => (map_to_list props).*1
  | VArr xs => map pretty (seq 0 (length xs))
  | _ => []
  end.

(** *** The prototype chain of data

    An object of the data has [Object.prototype] as its prototype, an array
    [Array.prototype] and then [Object.prototype]. *)

Inductive prototype := ObjectPrototype | ArrayPrototype.

(** The property names of [Object.prototype]. *)
Definition Object_prototype_keys : list string :=
  [ "constructor"; "__defineGetter__"; "__defineSetter__"; "hasOwnProperty";
    "__lookupGetter__"; "__lookupSetter__"; "isPrototypeOf";
    "propertyIsEnumerable"; "toString"; "valueOf"; "__proto__";
    "toLocaleString" ].

(** [String(v)], where it returns. *)
Fixpoint String_ (v : value) : string :=
  match v with
  | VUndefined => "undefined"
  | VNull => "null"
  | VBool true => "true"
  | VBool false => "false"
  | VNumber repr => repr
  | VBigInt n => pretty n
  | VStr s => s
  | VSymbol description => "Symbol(" +:+ description +:+ ")"
  | VArr xs =>
      Js.join ","
        (map (λ x, match x with
                   | VUndefined | VNull => ""
                   | _ => String_ x
                   end) xs)
  | VObj _ => "[object Object]"
  end.

Section Host.
Context `{Js.Host}.

(** Whether an object with the given prototype inherits the name [k]. *)
Definition inherits (holder : prototype) (k : string) : bool :=
  match holder with
  | ObjectPrototype => bool_decide (k ∈ Object_prototype_keys)
  | ArrayPrototype =>
      bool_decide (k ∈ Js.Array_prototype_keys)
      || bool_decide (k ∈ Object_prototype_keys)
  end.

(** What reading a property gives: a value the object owns, or
    [Inherited holder k], what the name [k] gives on an object whose prototype
    is [holder] and which has no such property of its own.  That is a built-in
    function (for [constructor], the [Object] or [Array] function), except
    for [__proto__], where it is the prototype object itself. *)
Inductive property_value :=
| Own (v : value)
| Inherited (holder : prototype) (k : string).

(** [v[k]], for an object or an array [v]. *)
Definition get (v : value) (k : string) : property_value :=
  match v with
  | VObj props =>
      match props !! k with
      | Some x => Own x
      | None => if inherits ObjectPrototype k then Inherited ObjectPrototype k
                else Own VUndefined
      end
  | VArr xs =>
      if String.eqb k "length" then Own (VNum (Z.of_nat (length xs)))
      else match array_index k (length xs) with
           | Some i => Own (default VUndefined (xs !! i))
           | None => if inherits ArrayPrototype k then Inherited ArrayPrototype k
                     else Own VUndefined
           end
  | _ => Own VUndefined
  end.

(** [k in v]: own properties, then the prototype chain; a [TypeError] when
    [v] is not an object. *)
Definition has_property (k : string) (v : value) : outcome bool :=
  match v with
  | VObj props =>
      Returned (bool_decide (is_Some (props !! k)) || inherits ObjectPrototype k)
  | VArr xs =>
      Returned (String.eqb k "length"
                || bool_decide (is_Some (array_index k (length xs)))
                || inherits ArrayPrototype k)
  | _ => Threw (ErrorInstance "TypeError"
                  ("Cannot use 'in' operator to search for '" +:+ k +:+ "' in "
                   +:+ String_ v))
  end.

End Host.

(** The conversion to string that a template literal applies.  A [Symbol]
    cannot be converted; an array joins the conversions of its elements; an
    object of the data gives [[object Object]] through the inherited
    [toString], unless a property of its own hides that method, and a
    property of the data is not callable. *)
Fixpoint ToString (v : value) : outcome string :=
  match v with
  | VSymbol _ =>
      Threw (ErrorInstance "TypeError" "Cannot convert a Symbol value to a string")
  | VArr xs =>
      Js.join "," <$>
        (fix elements (xs : list value) : outcome (list string) :=
           match xs with
           | [] => Returned []
           | x :: rest =>
               s ← match x with
                   | VUndefined | VNull => Returned ""
                   | _ => ToString x
                   end;
               ss ← elements rest;
               Returned (s :: ss)
           end) xs
  | VObj props =>
      if bool_decide (is_Some (props !! "toString"))
      then Threw (ErrorInstance "TypeError" "Cannot convert object to primitive value")
      else Returned "[object Object]"
  | _ => Returned (String_ v)
  end.

(** [String(v)] as a call: a [Symbol] is described, every other value is
    converted. *)
Definition String_call (v : value) : outcome string :=
  match v with
  | VSymbol _ => Returned (String_ v)
  | _ => ToString v
  end.

(** [String(error)] for what a [catch] clause receives, where it returns;
    [Error.prototype.toString] for an [Error] instance. *)
Definition String_thrown (error : thrown) : string :=
  match error with
  | ErrorInstance ename emessage =>
      if String.eqb ename "" then emessage
      else if String.eqb emessage "" then ename
      else ename +:+ ": " +:+ emessage
  | ThrownValue v => String_ v
  end.

(** [`${error}`] *)
Definition template_of_thrown (error : thrown) : outcome string :=
  match error with
  | ErrorInstance _ _ => Returned (String_thrown error)
  | ThrownValue v => ToString v
  end.

(** [error instanceof Error ? error.message : String(error)] *)
Definition message_of_thrown (error : thrown) : outcome string :=
  match error with
  | ErrorInstance _ emessage => Returned emessage
  | ThrownValue v => String_call v
  end.

Inductive LogLevel := LevelLog | LevelWarn | LevelError | LevelDebug.
Definition LogEntry : Type := LogLevel * string.

(** [{ content: [{ type: 'text', text }] }] *)
Definition text_result (text : value) : value :=
  VObj {[ "content" := VArr [VObj (<["type" := VStr "text"]> {[ "text" := text ]})] ]}.

(** *** What a method is handed

    The argument of a tool method is a value of the call, or a member that
    the call's argument inherits, or an object that the parameter map
    assembled and that is not plain data: one that holds an inherited
    member, or whose prototype the map has replaced ([None] is
    [Object.prototype]). *)
Inductive passed :=
| Plain (v : value)
| Member (holder : prototype) (k : string)
| Assembled (proto : option property_value) (props : gmap string property_value).

Coercion Plain : value >-> passed.

Definition pass (x : property_value) : passed :=
  match x with
  | Own v => Plain v
  | Inherited holder k => Member holder k
  end.

End JsValue.

(** ** mcp-tool.decorator.ts and mcp.service.ts (decorator-driven) *)

Module McpService.
Import JsValue.

(** [inputSchema] is handed to the protocol server untouched and is left
    out.  [paramMap] lists [Object.entries(tool.paramMap)] in order. *)
Record McpToolMetadata := {
  tool_name : string;
  title : option string;
  tool_description : option string;
  methodName : string;
  paramMap : option (list (string * string))
}.

(** [transformedArgs]: the prototype it has ([None] while it is still
    [Object.prototype]) and the properties it owns. *)
Definition building : Type := option property_value * gmap string property_value.

(** The [__proto__] setter of [Object.prototype]: an object, a function or
    [null] becomes the prototype; a primitive is ignored.
    [Inherited ObjectPrototype "__proto__"] is [Object.prototype] itself,
    the prototype a new object starts with. *)
Definition set_prototype (b : building) (x : property_value) : building :=
  match x with
  | Own (VObj _) | Own (VArr _) | Own VNull => (Some x, b.2)
  | Own _ => b
  | Inherited ObjectPrototype member =>
      if String.eqb member "__proto__" then (None, b.2) else (Some x, b.2)
  | Inherited ArrayPrototype _ => (Some x, b.2)
  end.

Section Host.
Context `{Js.Host}.

Definition read_only (k : string) : thrown :=
  ErrorInstance "TypeError" (Js.read_only_message k).

Definition restricted : thrown :=
  ErrorInstance "TypeError" Js.restricted_message.

(** [transformedArgs[k] = x], in the strict code of a class body.  A
    property the object owns is overwritten.  Otherwise the name is looked
    up along the prototype chain, which ends in [Object.prototype]
    unless the prototype is [null]: a writable data property there, or no
    property at all, makes a new own property; the [__proto__] accessor of
    [Object.prototype] runs its setter.  When the prototype is a built-in
    function, its read-only [name] and [length] (and [prototype], for the
    constructors [Object] and [Array]) and the throwing accessors [caller]
    and [arguments] of [Function.prototype] make the assignment throw. *)
Definition assign (b : building) (k : string) (x : property_value)
  : outcome building :=
  let create := Returned (b.1, <[k := x]> b.2) in
  let through_Object_prototype :=
    if String.eqb k "__proto__" then Returned (set_prototype b x) else create in
  if bool_decide (is_Some (b.2 !! k)) then create
  else
    match b.1 with
    | None => through_Object_prototype
    | Some (Own (VObj props)) =>
        if bool_decide (is_Some (props !! k)) then create
        else through_Object_prototype
    | Some (Own VNull) => create
    | Some (Own _) => through_Object_prototype
    | Some (Inherited _ member) =>
        if String.eqb member "__proto__" then through_Object_prototype
        else if String.eqb k "name" || String.eqb k "length" then Threw (read_only k)
        else if String.eqb k "prototype" && String.eqb member "constructor"
        then Threw (read_only k)
        else if String.eqb k "caller" || String.eqb k "arguments" then Threw restricted
        else through_Object_prototype
    end.

(** The loop of [transformArgs] over the entries of the parameter map. *)
Fixpoint applyParamMap (args : value) (entries : list (string * string))
    (transformedArgs : building) : outcome building :=
  match entries with
  | [] => mret transformedArgs
  | (mcpParam, methodParam) :: rest =>
      present ← has_property mcpParam args;
      transformedArgs ←
        (if present : bool
         then assign transformedArgs methodParam (get args mcpParam)
         else mret transformedArgs);
      applyParamMap args rest transformedArgs
  end.

(** The value a property holds when it is a value of the data. *)
Definition own_value (x : property_value) : option value :=
  match x with
  | Own v => Some v
  | Inherited _ _ => None
  end.

(** The values of an object all of whose properties are values of the
    data. *)
Definition own_values (props : gmap string property_value)
  : option (gmap string value) :=
  if forallb (λ entry, bool_decide (is_Some (own_value entry.2))) (map_to_list props)
  then Some (omap own_value props)
  else None.

(** [transformedArgs] as the method receives it: plain data when it is. *)
Definition assembled (b : building) : passed :=
  match b.1, own_values b.2 with
  | None, Some props => Plain (VObj props)
  | _, _ => Assembled b.1 b.2
  end.

Definition transformArgs (args : value) (tool : McpToolMetadata) : outcome passed :=
  if negb (truthy args)
     || (typeof_object args && (length (Object_keys args) =? 0)%nat)
  then mret (Plain VUndefined)
  else
    match paramMap tool with
    | None =>
        if typeof_object args && negb (isArray args) then
          match Object_keys args with
          | [key] => mret (pass (get args key))
          | _ => mret (Plain args)
          end
        else mret (Plain args)
    | Some entries =>
        transformedArgs ← applyParamMap args entries (None, ∅);
        match (map_to_list transformedArgs.2).*1 with
        | [key] => mret (pass (default (Own VUndefined) (transformedArgs.2 !! key)))
        | _ => mret (assembled transformedArgs)
        end
    end.

Section Runtime.
(** [JSON.stringify(v, null, 2)]: the engine's serializer, which gives a
    string or [undefined], or throws. *)
Variable JSON_stringify : value → outcome value.

Definition formatToolResult (result : value) : outcome value :=
  if truthy result && typeof_object result
     && match has_property "content" result with
        | Returned present => present
        | Threw _ => false
        end
  then mret result
  else text ← JSON_stringify result; mret (text_result text).

(** [try { body } catch (error) { handler }] *)
Definition try_catch {A : Type} (body : outcome A)
    (handler : thrown → outcome A * list LogEntry)
  : outcome A * list LogEntry :=
  match body with
  | Returned a => (Returned a, [])
  | Threw error => handler error
  end.

(** The [catch] block of the callback: the log line converts [error] in a
    template literal, before the response is built; a conversion that throws
    leaves the block with nothing logged. *)
Definition report (tool : McpToolMetadata) (error : thrown)
  : outcome value * list LogEntry :=
  match template_of_thrown error with
  | Threw conversion => (Threw conversion, [])
  | Returned shown =>
      let entry :=
        (LevelError, "Error executing tool " +:+ tool_name tool +:+ ": " +:+ shown) in
      match message_of_thrown error with
      | Returned message =>
          (Returned (text_result (VStr ("Error: " +:+ message))), [entry])
      | Threw conversion => (Threw conversion, [entry])
      end
  end.

(** The [try] block of the callback; [methodRef] is
    [instance[tool.methodName]] bound to its instance, and a rejected
    promise counts as a throw at the [await]. *)
Definition invoke (tool : McpToolMetadata)
    (methodRef : passed → outcome value) (args : value) : outcome value :=
  methodArgs ← transformArgs args tool;
  result ← methodRef methodArgs;
  formatToolResult result.

(** The callback handed to [server.registerTool]. *)
Definition toolCallback (tool : McpToolMetadata)
    (methodRef : passed → outcome value) (args : value)
  : outcome value * list LogEntry :=
  try_catch (invoke tool methodRef args) (report tool).

(** A property of a service instance. *)
Inductive member :=
| Method (f : passed → outcome value)
| Field (v : value).

(** A provider instance: the tool declarations its class carries
    ([Reflect.getMetadata], [None] when there are none) and its
    properties by name. *)
Record ServiceInstance := {
  class_tools : option (list McpToolMetadata);
  members : string → option member
}.

Inductive InstanceRef :=
| NoInstance
| StringInstance (s : string)
| ObjectInstance (o : ServiceInstance).

Record InstanceWrapper := {
  wrapper_name : string;
  instance : InstanceRef
}.

(** What [server.registerTool(name, { title, description, inputSchema },
    callback)] receives. *)
Record RegisteredTool := {
  reg_name : string;
  reg_title : option string;
  reg_description : option string;
  reg_callback : value → outcome value * list LogEntry
}.

(** [McpServer.registerTool] of the protocol SDK.  The server keeps its
    tools in a plain object keyed by name and refuses a name under which
    that object already gives something: a tool registered before, or a
    member of [Object.prototype]. *)
Definition registerTool (server : list RegisteredTool) (t : RegisteredTool)
  : outcome (list RegisteredTool) :=
  if bool_decide (reg_name t ∈ map reg_name server)
     || bool_decide (reg_name t ∈ Object_prototype_keys)
  then Threw (ErrorInstance "Error" ("Tool " +:+ reg_name t +:+ " is already registered"))
  else Returned (server ++ [t]).

Record Registration := {
  server_tools : list RegisteredTool;
  log : list LogEntry;
  toolCount : nat
}.

(** Discovery under way, or left by an exception, with what the server
    holds and what has been logged by then. *)
Inductive discovery :=
| Running (st : Registration)
| Aborted (st : Registration) (error : thrown).

Definition reached (d : discovery) : Registration :=
  match d with
  | Running st | Aborted st _ => st
  end.

Definition logger_log (msg : string) (st : Registration) : Registration :=
  {| server_tools := server_tools st;
     log := log st ++ [(LevelLog, msg)];
     toolCount := toolCount st |}.

Definition registerTool_step (o : ServiceInstance) (d : discovery)
    (tool : McpToolMetadata) : discovery :=
  match d with
  | Aborted _ _ => d
  | Running st =>
      match members o (methodName tool) with
      | Some (Method methodRef) =>
          let st :=
            logger_log ("  â†’ Registering tool: " +:+ tool_name tool +:+ " ("
                        +:+ methodName tool +:+ ")") st in
          match registerTool (server_tools st)
                  {| reg_name := tool_name tool;
                     reg_title := title tool;
                     reg_description := tool_description tool;
                     reg_callback := toolCallback tool methodRef |} with
          | Returned server =>
              Running {| server_tools := server;
                         log := log st;
                         toolCount := S (toolCount st) |}
          | Threw error => Aborted st error
          end
      | _ => d
      end
  end.

Definition registerProvider_step (d : discovery) (wrapper : InstanceWrapper)
  : discovery :=
  match d with
  | Aborted _ _ => d
  | Running st =>
      match instance wrapper with
      | NoInstance | StringInstance _ => d
      | ObjectInstance o =>
          let toolMetadata := default [] (class_tools o) in
          let st :=
            if (0 <? length toolMetadata)%nat then
              logger_log ("Found " +:+ pretty (length toolMetadata) +:+ " tool(s) in "
                          +:+ (if String.eqb (wrapper_name wrapper) "" then "unknown"
                               else wrapper_name wrapper)) st
            else st in
          fold_left (registerTool_step o) toolMetadata (Running st)
      end
  end.

Definition discoverAndRegisterTools (providers : list InstanceWrapper)
  : discovery :=
  let st :=
    logger_log "Starting MCP tool discovery..."
      {| server_tools := []; log := []; toolCount := 0 |} in
  match fold_left registerProvider_step providers (Running st) with
  | Running st =>
      Running
        (logger_log ("MCP tool discovery complete. Registered "
                     +:+ pretty (toolCount st) +:+ " tool(s) total.") st)
  | Aborted st error => Aborted st error
  end.

End Runtime.

End Host.

End McpService.

(** ** mcp.service.ts (tools registered by hand over the catalog) *)

Module RegistryTools.
Import JsValue Dto.

Section Service.
(** The catalog and the disk the registry service reads. *)
Variable registries : list Registry.
Variable fs : Fs.FileSystem.

(** [s || 'N/A'] *)
Definition or_NA (s : string) : string :=
  if String.eqb s "" then "N/A" else s.

Definition respond (text : string) : outcome value :=
  mret (text_result (VStr text)).

Definition list_registries : outcome value :=
  respond ("Available registries: " +:+
           Js.join ", " (map registry_name (RegistryService.getAllRegistries registries))).

Definition get_registry (name : string) : outcome value :=
  match RegistryService.getRegistryByName registries name with
  | None => respond ("Registry '" +:+ name +:+ "' not found")
  | Some registry =>
      respond
        (nl +:+ "Name: " +:+ registry_name registry +:+ nl
         +:+ "Description: " +:+ or_NA (description registry) +:+ nl
         +:+ "Installation: " +:+ or_NA (installCommand registry) +:+ nl
         +:+ "Use Cases: " +:+ or_NA (Js.join ", " (useCases registry)) +:+ nl
         +:+ "Components: "
         +:+ or_NA (Js.join ", " (map Dto.name (default [] (components registry))))
         +:+ nl)
  end.

(** [xs?.length || 0] *)
Definition length_or_0 (xs : option (list string)) : nat :=
  from_option length 0 xs.

Definition list_components (registryName : string) : outcome value :=
  let components :=
    RegistryService.getComponentsByRegistryName registries registryName in
  if (length components =? 0)%nat then
    respond ("No components found in registry '" +:+ registryName +:+ "'")
  else
    let componentList :=
      Js.join nl
        (map (λ c, "- " +:+ Dto.name c +:+ " (Markdown: "
                   +:+ pretty (length_or_0 (markdownFilePaths c))
                   +:+ ", Stories: "
                   +:+ pretty (length_or_0 (storyFilePaths c)) +:+ ")")
           components) in
    respond ("Components in '" +:+ registryName +:+ "':" +:+ nl +:+ componentList).

(** [xs && xs.length > 0] *)
Definition available (xs : option (list string)) : option (list string) :=
  match xs with
  | Some (p :: ps) => Some (p :: ps)
  | _ => None
  end.

Definition get_component_docs (registryName componentName : string)
  : outcome value :=
  match RegistryService.getComponentByName registries registryName componentName with
  | None =>
      respond ("Component '" +:+ componentName +:+ "' not found in registry '"
               +:+ registryName +:+ "'")
  | Some component =>
      match available (markdownFilePaths component) with
      | Some paths =>
          let markdownContent := map (RegistryService.getFileContent fs) paths in
          respond ("Documentation for " +:+ componentName +:+ ":" +:+ nl +:+ nl
                   +:+ Js.join (nl +:+ "---" +:+ nl) markdownContent)
      | None =>
          respond ("No documentation available for component '"
                   +:+ componentName +:+ "'")
      end
  end.

Definition get_component_stories (registryName componentName : string)
  : outcome value :=
  match RegistryService.getComponentByName registries registryName componentName with
  | None =>
      respond ("Component '" +:+ componentName +:+ "' not found in registry '"
               +:+ registryName +:+ "'")
  | Some component =>
      match available (storyFilePaths component) with
      | Some paths =>
          let storyContent := map (RegistryService.getFileContent fs) paths in
          respond ("Storybook stories for " +:+ componentName +:+ ":" +:+ nl +:+ nl
                   +:+ Js.join (nl +:+ "---" +:+ nl) storyContent)
      | None =>
          respond ("No Storybook stories available for component '"
                   +:+ componentName +:+ "'")
      end
  end.

End Service.

End RegistryTools.

(** ** mcp-tool.decorator.ts: the [McpTool] decorator *)

Module McpToolDecorator.
Import JsValue McpService.

(** [McpToolOptions], without [inputSchema]. *)
Record McpToolOptions := {
  opt_name : string;
  opt_title : option string;
  opt_description : option string;
  opt_paramMap : option (list (string * string))
}.

(** A class, as the decorator of an instance method sees it through
    [target.constructor]: its name and the classes it extends, nearest
    first. *)
Record Constructor := {
  class_name : string;
  ancestors : list string
}.

(** The metadata kept under the key [MCP_TOOL_METADATA]: the array each
    class owns, as an index into the arrays allocated so far.  Two classes
    may own the same array. *)
Record MetadataStore := {
  own : gmap string nat;
  arrays : list (list McpToolMetadata)
}.

Definition no_metadata : MetadataStore := {| own := ∅; arrays := [] |}.

(** The array found along a chain of classes: the first one owned. *)
Fixpoint lookup_chain (own : gmap string nat) (chain : list string) : option nat :=
  match chain with
  | [] => None
  | c :: rest =>
      match own !! c with
      | Some array => Some array
      | None => lookup_chain own rest
      end
  end.

(** [Reflect.getMetadata(MCP_TOOL_METADATA, C)]: the array [C] owns, or
    else the one its nearest ancestor owns; the array itself, not a copy. *)
Definition getMetadata (store : MetadataStore) (C : Constructor) : option nat :=
  lookup_chain (own store) (class_name C :: ancestors C).

(** What a reader of the metadata of [C] sees ([None] for [undefined]). *)
Definition tools_of (store : MetadataStore) (C : Constructor)
  : option (list McpToolMetadata) :=
  array ← getMetadata store C; arrays store !! array.

(** [McpTool(options)] applied to the method [propertyKey] of the class
    [C]: the new entry is pushed onto the array that [getMetadata] finds,
    or onto a new array when it finds none, and [defineMetadata] makes that
    array the one [C] owns. *)
Definition McpTool (options : McpToolOptions) (C : Constructor)
    (propertyKey : string) (store : MetadataStore) : MetadataStore :=
  let toolMetadata :=
    {| tool_name := opt_name options;
       title := opt_title options;
       tool_description := opt_description options;
       methodName := propertyKey;
       paramMap := opt_paramMap options |} in
  match getMetadata store C with
  | Some existingTools =>
      {| own := <[class_name C := existingTools]> (own store);
         arrays := alter (λ tools, tools ++ [toolMetadata]) existingTools (arrays store) |}
  | None =>
      {| own := <[class_name C := length (arrays store)]> (own store);
         arrays := arrays store ++ [[toolMetadata]] |}
  end.

(** The decorators of the instance methods of one class, applied in
    turn. *)
Definition decorate (C : Constructor) (declarations : list (McpToolOptions * string))
    (store : MetadataStore) : MetadataStore :=
  fold_left (λ store declaration, McpTool declaration.1 C declaration.2 store)
    declarations store.

End McpToolDecorator.

(** ** mock-tool.service.ts: the service the dispatcher is tested with

    [getUserStats] averages in floating point and is left out. *)

Module MockToolService.

Record MockUser := {
  user_id : Z;
  user_name : string;
  user_email : string
}.

(** The initial value of [mockUsers], which [resetUsers] restores. *)
Definition resetUsers : list MockUser :=
  [ {| user_id := 1; user_name := "Alice"; user_email := "alice@example.com" |};
    {| user_id := 2; user_name := "Bob"; user_email := "bob@example.com" |};
    {| user_id := 3; user_name := "Charlie"; user_email := "charlie@example.com" |} ].

Definition getAllUsers (mockUsers : list MockUser) : list MockUser := mockUsers.

Definition getUserById (mockUsers : list MockUser) (id : Z) : option MockUser :=
  find (λ user, bool_decide (user_id user = id)) mockUsers.

(** [createUser(args)]: the new user, and [mockUsers] after the push. *)
Definition createUser (mockUsers : list MockUser) (name email : string)
  : MockUser * list MockUser :=
  let newUser :=
    {| user_id := Z.of_nat (length mockUsers) + 1;
       user_name := name;
       user_email := email |} in
  (newUser, mockUsers ++ [newUser]).

Section Host.
Context `{Js.Host}.

Definition searchUsers (mockUsers : list MockUser) (query : string)
  : list MockUser :=
  filter (λ user, Js.includes (Js.toLowerCase (user_name user))
                    (Js.toLowerCase query) = true)
    mockUsers.

End Host.

End MockToolService.

(** * Terms in which the properties are stated *)

Module Terms.
Import Dto Fs RegistryService JsValue McpService RegistryTools.

Section Host.
Context `{Js.Host}.

(** A directory holds a documentation file: one of its entries is a
    regular file whose extension is among [extensions]. *)
Definition has_doc_file (fs : FileSystem) (dir : string)
    (extensions : list string) : Prop :=
  ∃ files file,
    readdirSync fs dir = Some files ∧ file ∈ files ∧
    statSync fs (Path.join [dir; file]) = Some RegularFile ∧
    Path.extname file ∈ extensions.

(** The dedicated-folder tier in the words of the design: the immediate
    files of [dir] whose name contains one of [extensions] as a
    substring. *)
Definition dedicated_tier (fs : FileSystem) (dir : string)
    (extensions : list string) : list string :=
  match readdirSyncWithFileTypes fs dir with
  | None => []
  | Some items =>
      map (λ item, Path.join [dir; dirent_name item])
        (filter (λ item, dirent_type item = RegularFile ∧
                         Exists (λ ext, Js.includes (dirent_name item) ext = true) extensions)
           items)
  end.

(** The flat-folder tier as the design words it: a file of the listing is
    collected exactly when its name contains the component name, case
    ignored, and its extension is configured. *)
Definition flat_tier_by_name (fs : FileSystem) (dirPath componentName : string)
    (extensions : list string) : Prop :=
  ∀ items item,
    readdirSync fs dirPath = Some items → item ∈ items →
    statSync fs (Path.join [dirPath; item]) = Some RegularFile →
    (Path.join [dirPath; item] ∈ findFilesInDirectory fs dirPath componentName extensions
     ↔ Js.includes (Js.toLowerCase item) (Js.toLowerCase componentName) = true
       ∧ Path.extname item ∈ extensions).

(** No registry of the catalog is called [n]. *)
Definition registry_absent (registries : list Registry) (n : string) : Prop :=
  ∀ r, r ∈ registries → registry_name r ≠ n.

(** No registry called [registryName] lists a component called
    [componentName]; in particular when no registry has that name. *)
Definition component_absent (registries : list Registry)
    (registryName componentName : string) : Prop :=
  ∀ r cs c,
    r ∈ registries → registry_name r = registryName →
    components r = Some cs → c ∈ cs → name c ≠ componentName.

Definition not_found_in_registry (registryName componentName : string) : string :=
  "Component '" +:+ componentName +:+ "' not found in registry '" +:+ registryName +:+ "'".

Definition docs_text (fs : FileSystem) (componentName : string)
    (paths : list string) : string :=
  "Documentation for " +:+ componentName +:+ ":" +:+ nl +:+ nl
  +:+ Js.join (nl +:+ "---" +:+ nl) (map (getFileContent fs) paths).

Definition no_docs_text (componentName : string) : string :=
  "No documentation available for component '" +:+ componentName +:+ "'".

(** The [text] of the single block of a response. *)
Definition text_of (response : outcome value) : option value :=
  match response with
  | Returned (VObj props) =>
      match props !! "content" with
      | Some (VArr [VObj block]) => block !! "text"
      | _ => None
      end
  | _ => None
  end.

(** What the error response reports for a caught [error]:
    [error instanceof Error ? error.message : String(error)]. *)
Definition thrown_message (error : thrown) : string :=
  match error with
  | ErrorInstance _ emessage => emessage
  | ThrownValue v => String_ v
  end.

(** Result normalization as the design words it for a result that is not
    an envelope: the result is wrapped into one text block. *)
Definition wrapped (JSON_stringify : value → outcome value) (result : value)
  : Prop :=
  ∃ text, formatToolResult JSON_stringify result = Returned (text_result text).

(** Where a registered tool comes from: a provider whose class declares
    [tool] and whose property [methodName tool] is the function [methodRef]. *)
Definition declared_by (JSON_stringify : value → outcome value)
    (providers : list InstanceWrapper) (t : RegisteredTool)
    (tool : McpToolMetadata) (methodRef : passed → outcome value) : Prop :=
  ∃ wrapper o,
    wrapper ∈ providers ∧ instance wrapper = ObjectInstance o ∧
    tool ∈ default [] (class_tools o) ∧
    members o (methodName tool) = Some (Method methodRef) ∧
    reg_name t = tool_name tool ∧
    reg_callback t = toolCallback JSON_stringify tool methodRef.

End Host.

End Terms.

(** * Disks, catalogs and services used as cases *)

Module Cases.
Import Dto Fs JsValue McpService.
#[local] Existing Instance Js.ascii_host.

(** A flat examples folder whose only file is [schema.json]. *)
Definition schema_disk : FileSystem :=
  disk [("/w/src/stories/basic", [Demo.file "schema.json"])]
       [("/w/src/stories/basic/schema.json", "{}")].

(** The component and the catalog that discovery yields on the Demo disk. *)
Definition button : Component :=
  {| name := "Button";
     markdownFilePaths := Some ["/w/src/components/ui/Button/readme.md"];
     storyFilePaths := Some ["/w/src/stories/basic/Button/Button.stories.js"] |}.

Definition demo_registries : list Registry :=
  [ {| registry_name := "Demo";
       installCommand := "npm install demo";
       description := "A demo registry";
       useCases := ["Testing"];
       components := Some [button] |} ].

(** A service with one declared tool, [explode], whose method throws. *)
Definition explode_tool : McpToolMetadata :=
  {| tool_name := "explode"; title := None; tool_description := None;
     methodName := "explode"; paramMap := None |}.

Definition explode_method (_ : passed) : outcome value :=
  Threw (ErrorInstance "Error" "boom").

Definition explode_service : ServiceInstance :=
  {| class_tools := Some [explode_tool];
     members := λ k, if String.eqb k "explode" then Some (Method explode_method) else None |}.

Definition explode_providers : list InstanceWrapper :=
  [ {| wrapper_name := "ConfigService"; instance := NoInstance |};
    {| wrapper_name := "ExplodeService"; instance := ObjectInstance explode_service |} ].

(** A method that throws a [Symbol]. *)
Definition symbol_method (_ : passed) : outcome value :=
  Threw (ThrownValue (VSymbol "boom")).

(** A tool whose parameter map expects an argument called [constructor]. *)
Definition constructor_tool : McpToolMetadata :=
  {| tool_name := "inject"; title := None; tool_description := None;
     methodName := "inject"; paramMap := Some [("constructor", "ctor")] |}.

(** A tool whose parameter map names its target [__proto__]. *)
Definition proto_tool : McpToolMetadata :=
  {| tool_name := "inherit"; title := None; tool_description := None;
     methodName := "inherit"; paramMap := Some [("a", "__proto__")] |}.

Definition plain_tool : McpToolMetadata :=
  {| tool_name := "get_mock_user"; title := None; tool_description := None;
     methodName := "getUserById"; paramMap := None |}.

(** A tool that renames its one parameter. *)
Definition mapped_tool : McpToolMetadata :=
  {| tool_name := "read_file"; title := None; tool_description := None;
     methodName := "readFile"; paramMap := Some [("ext", "internal")] |}.

(** What the registration of [explode_service] hands to the server. *)
Definition explode_registered (JSON_stringify : value → outcome value)
  : RegisteredTool :=
  {| reg_name := "explode"; reg_title := None; reg_description := None;
     reg_callback := toolCallback JSON_stringify explode_tool explode_method |}.

(** [JSON.stringify] on numbers and on [BigInt]s: a number is written as
    [String] writes it, except that [NaN] and the infinities are written
    [null], and a [BigInt] is refused.  The cases below serialize nothing
    else. *)
Definition stringify_integer (v : value) : outcome value :=
  match v with
  | VNumber repr =>
      if String.eqb repr "NaN" || String.eqb repr "Infinity"
         || String.eqb repr "-Infinity"
      then Returned (VStr "null")
      else Returned (VStr repr)
  | VBigInt _ =>
      Threw (ErrorInstance "TypeError" "Do not know how to serialize a BigInt")
  | _ => Returned VUndefined
  end.

End Cases.

(** * Further terms and cases *)

Module MoreTerms.
Import Dto Fs RegistryService JsValue McpService RegistryTools McpToolDecorator Terms.

Section Host.
Context `{Js.Host}.

(** The registry that discovery builds from one configuration entry. *)
Definition discovered_registry (fs : FileSystem) (workspaceRoot : string)
    (registryConfig : RegistryConfiguration) : Registry :=
  {| registry_name := config_name registryConfig;
     installCommand := config_installCommand registryConfig;
     description := config_description registryConfig;
     useCases := config_useCases registryConfig;
     components :=
       Some (discoverComponents fs (config_components registryConfig) workspaceRoot) |}.

(** The registry of the Demo catalog. *)
Definition demo_registry : Registry :=
  {| registry_name := "Demo";
     installCommand := "npm install demo";
     description := "A demo registry";
     useCases := ["Testing"];
     components := Some [Cases.button] |}.

(** A second registry that reuses the name "Demo". *)
Definition demo_shadow : Registry :=
  {| registry_name := "Demo";
     installCommand := "npm install other";
     description := "Another registry called Demo";
     useCases := [];
     components := None |}.

Definition other_registry : Registry :=
  {| registry_name := "Other";
     installCommand := "";
     description := "";
     useCases := [];
     components := Some [] |}.

(** The entries a scan gets to examine: those that come before the first
    entry on which [statSync] throws. *)
Fixpoint examinable (fs : FileSystem) (dir : string) (items : list string)
  : list string :=
  match items with
  | [] => []
  | item :: rest =>
      match statSync fs (Path.join [dir; item]) with
      | Some _ => item :: examinable fs dir rest
      | None => []
      end
  end.

(** An extension written with a dot after its first character, such as
    [.stories.js]. *)
Definition multi_segment (ext : string) : Prop :=
  ∃ i, Path.lastIndexOfDot ext = Some (S i).

(** A folder in which a dangling link precedes the documentation. *)
Definition dangling_disk : FileSystem :=
  {| fs_stat p :=
       if String.eqb p "/w/c/Card" then Some Directory
       else if String.eqb p "/w/c/Card/readme.md" then Some RegularFile
       else None;
     fs_readdir p :=
       if String.eqb p "/w/c/Card"
       then Some [ {| dirent_name := "link.md"; dirent_type := OtherEntry |};
                   {| dirent_name := "readme.md"; dirent_type := RegularFile |} ]
       else None;
     fs_readFile p :=
       if String.eqb p "/w/c/Card/readme.md" then Some "# Card" else None |}.



(** The object a parameter map makes of an input object: each entry whose
    external name the input has puts the input's value under the entry's
    target name, later entries over earlier ones. *)
Definition mapped_object (props : gmap string value)
    (entries : list (string * string)) : gmap string value :=
  list_to_map
    (rev (omap (λ entry, (λ v, (entry.2, v)) <$> props !! entry.1) entries)).

(** An object with exactly one property stands for that property's value. *)
Definition unwrap_single (t : gmap string value) : value :=
  match map_to_list t with
  | [(_, v)] => v
  | _ => VObj t
  end.

(** A tool whose parameter map sends two external names to one target. *)
Definition merging_tool : McpToolMetadata :=
  {| tool_name := "merge"; title := None; tool_description := None;
     methodName := "merge"; paramMap := Some [("a", "x"); ("b", "x")] |}.

(** The metadata a declaration leaves on its class. *)
Definition declared (declaration : McpToolOptions * string) : McpToolMetadata :=
  {| tool_name := opt_name declaration.1;
     title := opt_title declaration.1;
     tool_description := opt_description declaration.1;
     methodName := declaration.2;
     paramMap := opt_paramMap declaration.1 |}.

(** The class of the mock service and the decorators of its methods, in
    the order of the class body. *)
Definition mock_class : Constructor :=
  {| class_name := "MockToolService"; ancestors := [] |}.

Definition user_declarations : list (McpToolOptions * string) :=
  [ ({| opt_name := "list_mock_users"; opt_title := Some "List Mock Users";
        opt_description := Some "Returns a list of all mock users";
        opt_paramMap := None |}, "getAllUsers");
    ({| opt_name := "get_mock_user"; opt_title := Some "Get Mock User";
        opt_description := Some "Get a specific mock user by ID";
        opt_paramMap := None |}, "getUserById");
    ({| opt_name := "create_mock_user"; opt_title := Some "Create Mock User";
        opt_description := Some "Create a new mock user";
        opt_paramMap := None |}, "createUser");
    ({| opt_name := "search_mock_users"; opt_title := Some "Search Mock Users";
        opt_description := Some "Search users by name (case-insensitive)";
        opt_paramMap := None |}, "searchUsers");
    ({| opt_name := "get_mock_user_stats"; opt_title := Some "Get Mock User Statistics";
        opt_description := Some "Get statistics about mock users";
        opt_paramMap := None |}, "getUserStats") ].

(** A class that extends the mock service and decorates one method of its
    own. *)
Definition admin_class : Constructor :=
  {| class_name := "AdminToolService"; ancestors := ["MockToolService"] |}.

Definition admin_declarations : list (McpToolOptions * string) :=
  [ ({| opt_name := "purge_mock_users"; opt_title := None;
        opt_description := None; opt_paramMap := None |}, "purgeUsers") ].






Definition stories_text (fs : FileSystem) (componentName : string)
    (paths : list string) : string :=
  "Storybook stories for " +:+ componentName +:+ ":" +:+ nl +:+ nl
  +:+ Js.join (nl +:+ "---" +:+ nl) (map (getFileContent fs) paths).

Definition no_stories_text (componentName : string) : string :=
  "No Storybook stories available for component '" +:+ componentName +:+ "'".

Definition no_components_text (registryName : string) : string :=
  "No components found in registry '" +:+ registryName +:+ "'".

Definition registry_not_found_text (n : string) : string :=
  "Registry '" +:+ n +:+ "' not found".

(** The users are numbered from [base + 1] on, in order. *)
Definition numbered_from (base : nat) (mockUsers : list MockToolService.MockUser)
  : Prop :=
  ∀ i user, mockUsers !! i = Some user →
            MockToolService.user_id user = (Z.of_nat (base + i) + 1)%Z.

End Host.

End MoreTerms.

(** * Properties *)

(** ** Lists built by pushing in a loop *)

Section PushLoops.
Context {A B : Type}.

Lemma fold_left_push (step : list B → A → list B) :
  (∀ acc x, step acc x = acc ++ step [] x) →
  ∀ l acc, fold_left step l acc = acc ++ flat_map (step []) l.
Proof.
  intros Hstep l. induction l as [|x l IH]; intros acc; simpl.
  - by rewrite app_nil_r.
  - rewrite IH, (Hstep acc x). by rewrite <- app_assoc.
Qed.

Lemma elem_of_flat_map (f : A → list B) (l : list A) (y : B) :
  y ∈ flat_map f l ↔ ∃ x, x ∈ l ∧ y ∈ f x.
Proof.
  rewrite list_elem_of_In, in_flat_map.
  split; intros (x & Hx & Hy); exists x.
  - by rewrite !list_elem_of_In.
  - by rewrite <- !list_elem_of_In.
Qed.

End PushLoops.

Module RegistryServiceFacts.
Import Dto Fs RegistryService Terms.

Section Host.
Context `{Js.Host}.

Lemma findMarkdownFiles_loop_elem fs dir extensions files acc p :
  p ∈ findMarkdownFiles_loop fs dir extensions files acc →
  p ∈ acc ∨
  ∃ file, file ∈ files ∧
    statSync fs (Path.join [dir; file]) = Some RegularFile ∧
    Path.extname file ∈ extensions.
Proof.
  revert acc. induction files as [|file rest IH]; intros acc; simpl.
  - by left.
  - destruct (statSync fs (Path.join [dir; file])) as [stat|] eqn:Hstat; [|by left].
    intros Hp. apply IH in Hp as [Hp|(f & Hf & Hs & He)].
    + destruct (isFile stat) eqn:Hfile; simpl in Hp; [|by left].
      destruct (Js.array_includes extensions (Path.extname file)) eqn:Hext; [|by left].
      apply elem_of_app in Hp as [Hp|Hp]; [by left|].
      right. exists file. split; [left|].
      apply bool_decide_eq_true in Hfile, Hext. by subst stat.
    + right. exists f. split; [by right|done].
Qed.

Lemma findMarkdownFiles_elem fs dir extensions p :
  p ∈ findMarkdownFiles fs dir extensions → has_doc_file fs dir extensions.
Proof.
  unfold findMarkdownFiles, has_doc_file.
  destruct (readdirSync fs dir) as [files|] eqn:Hdir; [|by intros ?%elem_of_nil].
  intros [Hp|(file & Hf & Hs & He)]%findMarkdownFiles_loop_elem.
  - by apply elem_of_nil in Hp.
  - by exists files, file.
Qed.

Lemma findMarkdownFiles_none fs dir extensions :
  ¬ has_doc_file fs dir extensions → findMarkdownFiles fs dir extensions = [].
Proof.
  intros Hnone. destruct (findMarkdownFiles fs dir extensions) as [|p ps] eqn:Hdocs; [done|].
  destruct Hnone. apply (findMarkdownFiles_elem fs dir extensions p).
  rewrite Hdocs. left.
Qed.

Lemma discoverComponents_folder_push fs config root base acc folder :
  discoverComponents_folder fs config root base acc folder
  = acc ++ discoverComponents_folder fs config root base [] folder.
Proof.
  unfold discoverComponents_folder.
  destruct (length _ =? 0)%nat; [by rewrite app_nil_r|done].
Qed.

Lemma discoverComponents_subDir_push fs config root acc subDir :
  discoverComponents_subDir fs config root acc subDir
  = acc ++ discoverComponents_subDir fs config root [] subDir.
Proof.
  unfold discoverComponents_subDir.
  destruct (negb _); [by rewrite app_nil_r|].
  rewrite !(fold_left_push _ (discoverComponents_folder_push fs config root _)).
  done.
Qed.

(** The two nested loops, read as a concatenation. *)
Lemma discoverComponents_unfold fs config root :
  discoverComponents fs config root
  = flat_map (discoverComponents_subDir fs config root []) (componentSubDirs config).
Proof.
  unfold discoverComponents.
  by rewrite (fold_left_push _ (discoverComponents_subDir_push fs config root)).
Qed.

(** C1.  Documentation is the admission gate of discovery.  A candidate
    folder none of whose immediate files carries a configured
    documentation extension leaves the component list as it was; and every
    component of the resolver's output has a non-empty list of
    documentation paths and was found, under one of the declared
    sub-directories, as a folder that holds a documentation file. *)
Theorem discoverComponents_admission_gate fs config root :
  (∀ base components folder,
      ¬ has_doc_file fs (Path.join [base; folder]) (componentFileExtensions config) →
      discoverComponents_folder fs config root base components folder = components)
  ∧
  (∀ c, c ∈ discoverComponents fs config root →
      (∃ docs, markdownFilePaths c = Some docs ∧ docs ≠ []) ∧
      ∃ subDir, subDir ∈ componentSubDirs config ∧
        let base := Path.join [root; basePath config; componentDir config; subDir] in
        name c ∈ getDirectories fs base ∧
        has_doc_file fs (Path.join [base; name c]) (componentFileExtensions config)).
Proof.
  split.
  - intros base components folder Hnone. unfold discoverComponents_folder.
    by rewrite (findMarkdownFiles_none _ _ _ Hnone).
  - intros c. rewrite discoverComponents_unfold.
    intros (subDir & HsubDir & Hc)%elem_of_flat_map.
    unfold discoverComponents_subDir in Hc.
    destruct (negb _); [by apply elem_of_nil in Hc|].
    rewrite (fold_left_push _ (discoverComponents_folder_push fs config root _)) in Hc.
    simpl in Hc. apply elem_of_flat_map in Hc as (folder & Hfolder & Hc).
    unfold discoverComponents_folder in Hc.
    destruct (findMarkdownFiles fs _ (componentFileExtensions config))
      as [|p docs] eqn:Hdocs; simpl in Hc; [by apply elem_of_nil in Hc|].
    apply list_elem_of_singleton in Hc. subst c. simpl. split.
    + by exists (p :: docs).
    + exists subDir. split; [done|]. split; [done|].
      apply (findMarkdownFiles_elem _ _ _ p). rewrite Hdocs. left.
Qed.

End Host.

End RegistryServiceFacts.

Module ExampleResolution.
Import Dto Fs RegistryService Terms.

Section Host.
Context `{Js.Host}.

Lemma findFilesInDirectoryRoot_loop (dir : string) (extensions : list string)
    (items : list Dirent) (acc : list string) :
  fold_left
    (λ files item,
       if isFile (dirent_type item) then
         if existsb (λ ext, Js.includes (dirent_name item) ext) extensions
         then files ++ [Path.join [dir; dirent_name item]]
         else files
       else files)
    items acc
  = acc ++
    map (λ item, Path.join [dir; dirent_name item])
      (filter (λ item, dirent_type item = RegularFile ∧
                       Exists (λ ext, Js.includes (dirent_name item) ext = true) extensions)
         items).
Proof.
  revert acc. induction items as [|item items IH]; intros acc; simpl.
  - by rewrite app_nil_r.
  - rewrite IH, filter_cons. unfold isFile.
    destruct (decide (dirent_type item = RegularFile)) as [Hfile|Hfile].
    + rewrite bool_decide_eq_true_2 by done.
      destruct (existsb _ extensions) eqn:Hext.
      * rewrite decide_True; [simpl; by rewrite <- app_assoc|].
        split; [done|]. apply Exists_exists.
        apply existsb_exists in Hext as (ext & ? & ?).
        exists ext. by rewrite list_elem_of_In.
      * rewrite decide_False; [done|]. intros [_ Hex].
        apply Exists_exists in Hex as (ext & Hin & Hinc).
        apply list_elem_of_In in Hin.
        assert (existsb (λ ext, Js.includes (dirent_name item) ext) extensions = true)
          by (apply existsb_exists; by exists ext).
        congruence.
    + rewrite bool_decide_eq_false_2 by done.
      rewrite decide_False; [done|]. by intros [? _].
Qed.

Lemma findFilesInDirectoryRoot_dedicated fs dir extensions :
  findFilesInDirectoryRoot fs dir extensions = dedicated_tier fs dir extensions.
Proof.
  unfold findFilesInDirectoryRoot, dedicated_tier.
  destruct (readdirSyncWithFileTypes fs dir) as [items|]; [|done].
  by rewrite findFilesInDirectoryRoot_loop.
Qed.

Lemma findStoryFiles_step_push fs componentName config root acc subDir :
  findStoryFiles_step fs componentName config root acc subDir
  = acc ++ findStoryFiles_step fs componentName config root [] subDir.
Proof.
  unfold findStoryFiles_step.
  destruct (negb _); [by rewrite app_nil_r|]. by destruct (_ && _).
Qed.

(** C8.  Example files are resolved per declared examples sub-directory,
    in declared order, and the per-sub-directory results are concatenated:
    a sub-directory that does not exist contributes nothing; where
    [examplesRoot/subDir/<componentName>] is a directory only the
    dedicated-folder tier is consulted (its immediate files whose name
    contains a configured example extension as a substring), and otherwise
    only the flat-folder tier. *)
Theorem findStoryFiles_two_tiers fs componentName config root :
  findStoryFiles fs componentName config root
  = flat_map
      (λ subDir,
         let storyBasePath :=
           Path.join [root; basePath config; storiesDir config; subDir] in
         let componentStoryPath := Path.join [storyBasePath; componentName] in
         if existsSync fs storyBasePath then
           if bool_decide (statSync fs componentStoryPath = Some Directory)
           then dedicated_tier fs componentStoryPath (storiesFileExtensions config)
           else findFilesInDirectory fs storyBasePath componentName
                  (storiesFileExtensions config)
         else [])
      (storiesSubDirs config).
Proof.
  unfold findStoryFiles.
  rewrite (fold_left_push _ (findStoryFiles_step_push fs componentName config root)).
  simpl. apply flat_map_ext. intros subDir. unfold findStoryFiles_step.
  destruct (existsSync fs (Path.join [root; _; _; subDir])); simpl; [|done].
  rewrite findFilesInDirectoryRoot_dedicated.
  unfold existsSync, statSync.
  destruct (fs_stat fs _) as [[| |]|]; simpl; try done.
Qed.

Lemma findFilesInDirectory_loop_spec fs dirPath componentName extensions items acc :
  (∀ item, item ∈ items → is_Some (statSync fs (Path.join [dirPath; item]))) →
  findFilesInDirectory_loop fs dirPath componentName extensions items acc
  = acc ++
    map (λ item, Path.join [dirPath; item])
      (filter (λ item,
         statSync fs (Path.join [dirPath; item]) = Some RegularFile ∧
         Js.includes (Js.toLowerCase (Path.basename item (Path.extname item)))
           (Js.toLowerCase componentName) = true ∧
         Path.extname item ∈ extensions) items).
Proof.
  revert acc. induction items as [|item items IH]; intros acc Hstat; simpl.
  - by rewrite app_nil_r.
  - destruct (Hstat item) as [stat Hitem]; [left|].
    rewrite Hitem, IH by (intros; apply Hstat; by right).
    rewrite filter_cons. unfold isFile, Js.array_includes.
    destruct (decide (stat = RegularFile)) as [->|Hne].
    + rewrite bool_decide_eq_true_2 by done.
      destruct (Js.includes _ _) eqn:Hname; simpl.
      * destruct (decide (Path.extname item ∈ extensions)) as [Hext|Hext].
        -- rewrite bool_decide_eq_true_2 by done.
           rewrite decide_True by (by rewrite Hitem).
           simpl. by rewrite <- app_assoc.
        -- rewrite bool_decide_eq_false_2 by done.
           rewrite decide_False; [done|]. by intros (_ & _ & ?).
      * rewrite decide_False; [done|]. by intros (_ & ? & _).
    + rewrite bool_decide_eq_false_2 by done.
      rewrite decide_False; [done|]. rewrite Hitem. intros ([= ?] & _). done.
Qed.

(** C4, as the code has it.  In the flat-folder tier, when the examples
    sub-directory can be listed and each of its entries can be examined,
    the collected paths are, in listing order, exactly the entries that
    are regular files, whose name without its extension contains the
    component name (case ignored), and whose extension (the last
    dot-segment) is a member of the configured set. *)
Theorem findFilesInDirectory_flat_tier fs dirPath componentName extensions items :
  readdirSync fs dirPath = Some items →
  (∀ item, item ∈ items → is_Some (statSync fs (Path.join [dirPath; item]))) →
  findFilesInDirectory fs dirPath componentName extensions
  = map (λ item, Path.join [dirPath; item])
      (filter (λ item,
         statSync fs (Path.join [dirPath; item]) = Some RegularFile ∧
         Js.includes (Js.toLowerCase (Path.basename item (Path.extname item)))
           (Js.toLowerCase componentName) = true ∧
         Path.extname item ∈ extensions) items).
Proof.
  intros Hdir Hstat. unfold findFilesInDirectory. rewrite Hdir.
  by rewrite findFilesInDirectory_loop_spec.
Qed.

End Host.

End ExampleResolution.

Module ExampleResolutionCases.
Import Dto Fs RegistryService Terms Cases ExampleResolution RegistryServiceFacts.

#[local] Existing Instance Js.ascii_host.

Lemma findFilesInDirectory_flat_tier_witness :
  findFilesInDirectory Demo.fs "/w/src/stories/basic" "Empty" [".js"]
  = map (λ item, Path.join ["/w/src/stories/basic"; item])
      (filter (λ item,
         statSync Demo.fs (Path.join ["/w/src/stories/basic"; item]) = Some RegularFile ∧
         Js.includes (Js.toLowerCase (Path.basename item (Path.extname item)))
           (Js.toLowerCase "Empty") = true ∧
         Path.extname item ∈ [".js"]) ["Button"; "Empty.stories.js"]).
Proof.
  apply (findFilesInDirectory_flat_tier Demo.fs "/w/src/stories/basic" "Empty" [".js"]).
  - vm_compute. reflexivity.
  - intros item Hitem.
    apply elem_of_cons in Hitem as [->|Hitem]; [vm_compute; eauto|].
    apply list_elem_of_singleton in Hitem as ->. vm_compute. eauto.
Defined.

(** C4, as worded.  [schema.json] sits in the examples folder, its name
    contains the component name [Json] and its extension [.json] is
    configured, yet the flat-folder tier does not collect it: the name is
    compared after its extension has been taken off. *)
Lemma flat_tier_by_name_fails :
  ¬ flat_tier_by_name schema_disk "/w/src/stories/basic" "Json" [".json"].
Proof.
  intros Hclaim.
  assert (Hlist : readdirSync schema_disk "/w/src/stories/basic" = Some ["schema.json"])
    by (vm_compute; reflexivity).
  assert (Hstat : statSync schema_disk (Path.join ["/w/src/stories/basic"; "schema.json"])
                  = Some RegularFile) by (vm_compute; reflexivity).
  destruct (Hclaim _ "schema.json" Hlist (list_elem_of_here _ _) Hstat) as [_ Hcollected].
  assert (Hnone : findFilesInDirectory schema_disk "/w/src/stories/basic" "Json" [".json"] = [])
    by (vm_compute; reflexivity).
  rewrite Hnone in Hcollected. eapply elem_of_nil, Hcollected. split.
  - vm_compute. reflexivity.
  - replace (Path.extname "schema.json") with ".json" by (vm_compute; reflexivity). left.
Qed.

Lemma discoverComponents_admission_gate_witness :
  discoverComponents_folder Demo.fs Demo.layout "/w" "/w/src/components/ui" [] "Empty" = []
  ∧ ∃ docs, markdownFilePaths button = Some docs ∧ docs ≠ [].
Proof.
  destruct (discoverComponents_admission_gate Demo.fs Demo.layout "/w") as [Hgate Hout].
  split.
  - apply Hgate. intros (files & file & Hdir & Hfile & _ & Hext).
    replace (readdirSync Demo.fs (Path.join ["/w/src/components/ui"; "Empty"]))
      with (Some ["notes.txt"]) in Hdir by (vm_compute; reflexivity).
    injection Hdir as <-. apply list_elem_of_singleton in Hfile as ->.
    replace (Path.extname "notes.txt") with ".txt" in Hext by (vm_compute; reflexivity).
    repeat (apply elem_of_cons in Hext as [Hext|Hext]; [discriminate|]).
    by apply elem_of_nil in Hext.
  - apply Hout.
    replace (discoverComponents Demo.fs Demo.layout "/w")
      with [button] by (vm_compute; reflexivity).
    left.
Defined.

End ExampleResolutionCases.

Module CatalogFacts.
Import JsValue Dto Fs RegistryService RegistryTools Terms Cases.

Lemma find_absent {A : Type} (f : A → bool) (l : list A) :
  (∀ x, x ∈ l → f x = false) → find f l = None.
Proof.
  induction l as [|x l IH]; intros Hall; simpl; [done|].
  rewrite (Hall x) by left. apply IH. intros y Hy. apply Hall. by right.
Qed.

Lemma find_present {A : Type} (f : A → bool) (l : list A) (x : A) :
  find f l = Some x → x ∈ l ∧ f x = true.
Proof.
  induction l as [|y l IH]; simpl; [done|].
  destruct (f y) eqn:Hy.
  - intros [= ->]. split; [left|done].
  - intros [? ?]%IH. split; [by right|done].
Qed.

Lemma getRegistryByName_absent registries n :
  registry_absent registries n → getRegistryByName registries n = None.
Proof.
  intros Habs. apply find_absent. intros r Hr.
  apply bool_decide_eq_false. by apply Habs.
Qed.

Lemma getComponentByName_absent registries registryName componentName :
  component_absent registries registryName componentName →
  getComponentByName registries registryName componentName = None.
Proof.
  intros Habs. unfold getComponentByName, getRegistryByName.
  destruct (find _ registries) as [r|] eqn:Hfind; [|done].
  apply find_present in Hfind as [Hr Hname]. apply bool_decide_eq_true in Hname.
  destruct (components r) as [cs|] eqn:Hcs; [|done].
  apply find_absent. intros c Hc. apply bool_decide_eq_false. by eapply Habs.
Qed.

Lemma text_of_respond (s : string) : text_of (respond s) = Some (VStr s).
Proof.
  unfold text_of, respond, text_result, mret, outcome_ret.
  rewrite lookup_singleton_eq, lookup_insert_ne by done.
  apply lookup_singleton_eq.
Qed.

Lemma respond_inj (s t : string) : respond s = respond t → s = t.
Proof.
  intros Heq%(f_equal text_of). rewrite !text_of_respond in Heq. congruence.
Qed.

(** C9.  The file-content reader gives the empty string for a path that
    does not exist and for a path whose read fails, and
    get-components-by-registry-name gives the empty list for a name no
    registry carries; both are total, neither lets an error escape. *)
Theorem lenient_reads fs registries :
  (∀ filePath,
      existsSync fs filePath = false ∨ readFileSync fs filePath = None →
      getFileContent fs filePath = "")
  ∧ (∀ n, registry_absent registries n →
          getComponentsByRegistryName registries n = []).
Proof.
  split.
  - intros filePath [Hmissing|Hfails]; unfold getFileContent.
    + by rewrite Hmissing.
    + rewrite Hfails. by destruct (negb _).
  - intros n Habs. unfold getComponentsByRegistryName.
    by rewrite getRegistryByName_absent.
Qed.

(** C7.  On a registry name the catalog does not hold, get_registry
    answers with its not-found text; on a registry and component name pair
    the catalog does not hold, get_component_docs and
    get_component_stories answer with theirs.  Each call returns; none
    throws. *)
Theorem unknown_names_not_found registries fs :
  (∀ n, registry_absent registries n →
      get_registry registries n = Returned
        (text_result (VStr ("Registry '" +:+ n +:+ "' not found"))))
  ∧ (∀ registryName componentName,
      component_absent registries registryName componentName →
      get_component_docs registries fs registryName componentName
      = Returned (text_result (VStr (not_found_in_registry registryName componentName)))
      ∧ get_component_stories registries fs registryName componentName
      = Returned (text_result (VStr (not_found_in_registry registryName componentName)))).
Proof.
  split.
  - intros n Habs. unfold get_registry. by rewrite getRegistryByName_absent.
  - intros registryName componentName Habs.
    unfold get_component_docs, get_component_stories.
    by rewrite getComponentByName_absent.
Qed.

(** C6.  For a name pair the catalog resolves to a component, the docs
    tool has exactly two answers.  It returns the heading followed by the
    contents of the documentation files, joined by the delimiter (a
    non-empty text), exactly when the component's documentation-path list
    is non-empty; it returns the no-docs message exactly when that list is
    empty or absent; and the two answers are never the same response. *)
Theorem get_component_docs_outcomes registries fs registryName componentName c :
  getComponentByName registries registryName componentName = Some c →
  let answer := get_component_docs registries fs registryName componentName in
  let documented := ∃ paths, answer = respond (docs_text fs componentName paths) in
  let undocumented := answer = respond (no_docs_text componentName) in
  (∀ paths, markdownFilePaths c = Some paths → paths ≠ [] →
            answer = respond (docs_text fs componentName paths)
            ∧ docs_text fs componentName paths ≠ "")
  ∧ (documented ↔ ∃ paths, markdownFilePaths c = Some paths ∧ paths ≠ [])
  ∧ (undocumented ↔ markdownFilePaths c = None ∨ markdownFilePaths c = Some [])
  ∧ (documented ∨ undocumented)
  ∧ ¬ (documented ∧ undocumented).
Proof.
  intros Hfound answer documented undocumented.
  assert (Hdistinct : ∀ paths, respond (docs_text fs componentName paths)
                               ≠ respond (no_docs_text componentName)).
  { intros paths Heq%respond_inj. unfold docs_text, no_docs_text in Heq.
    simpl in Heq. discriminate. }
  assert (Hanswer :
    answer = match available (markdownFilePaths c) with
             | Some paths => respond (docs_text fs componentName paths)
             | None => respond (no_docs_text componentName)
             end).
  { unfold answer, get_component_docs. rewrite Hfound.
    by destruct (available (markdownFilePaths c)). }
  assert (Hsome : ∀ paths, markdownFilePaths c = Some paths → paths ≠ [] →
                           answer = respond (docs_text fs componentName paths)).
  { intros paths Hp Hne. rewrite Hanswer, Hp. by destruct paths. }
  assert (Hnone : markdownFilePaths c = None ∨ markdownFilePaths c = Some [] →
                  undocumented).
  { unfold undocumented. intros [Hp|Hp]; by rewrite Hanswer, Hp. }
  split; [|split; [|split; [|split]]].
  - intros paths Hp Hne. split; [by apply Hsome|].
    unfold docs_text. simpl. discriminate.
  - split.
    + intros [paths Hdocs].
      destruct (markdownFilePaths c) as [[|p ps]|] eqn:Hp.
      * rewrite (Hnone (or_intror eq_refl)) in Hdocs. by apply eq_sym, Hdistinct in Hdocs.
      * by exists (p :: ps).
      * rewrite (Hnone (or_introl eq_refl)) in Hdocs. by apply eq_sym, Hdistinct in Hdocs.
    + intros (paths & Hp & Hne). exists paths. by apply Hsome.
  - split; [|exact Hnone].
    intros Hno. destruct (markdownFilePaths c) as [[|p ps]|] eqn:Hp; [by right| |by left].
    unfold undocumented in Hno. rewrite (Hsome (p :: ps)) in Hno by done.
    by apply Hdistinct in Hno.
  - destruct (markdownFilePaths c) as [[|p ps]|] eqn:Hp.
    + right. apply Hnone. by right.
    + left. exists (p :: ps). by apply Hsome.
    + right. apply Hnone. by left.
  - intros [[paths Hdocs] Hno]. unfold undocumented in Hno.
    rewrite Hdocs in Hno. by apply Hdistinct in Hno.
Qed.

End CatalogFacts.

Module DispatcherFacts.
Import JsValue McpService Terms Cases.

Lemma Object_keys_length (props : gmap string value) :
  length (Object_keys (VObj props)) = size props.
Proof. simpl. by rewrite length_fmap, length_map_to_list. Qed.

Lemma Object_keys_singleton (k : string) (v : value) :
  Object_keys (VObj {[k := v]}) = [k].
Proof. simpl. by rewrite map_to_list_singleton. Qed.

Lemma Object_keys_many (props : gmap string value) :
  size props ≠ 1 →
  match Object_keys (VObj props) with [_] => False | _ => True end.
Proof.
  intros Hsize. destruct (Object_keys (VObj props)) as [|k [|? ?]] eqn:Hkeys; try done.
  apply Hsize. by rewrite <- Object_keys_length, Hkeys.
Qed.

Lemma empty_object_test (props : gmap string value) :
  (length (Object_keys (VObj props)) =? 0)%nat = bool_decide (props = ∅).
Proof.
  rewrite Object_keys_length. destruct (decide (props = ∅)) as [->|Hne].
  - by rewrite map_size_empty.
  - rewrite bool_decide_eq_false_2 by done.
    apply Nat.eqb_neq. by apply map_size_non_empty_iff.
Qed.

(** An object all of whose properties are data is the data it holds. *)
Lemma own_values_fmap (t : gmap string value) : own_values (Own <$> t) = Some t.
Proof.
  unfold own_values.
  assert (Hall : forallb (λ entry : string * property_value,
                            bool_decide (is_Some (own_value entry.2)))
                   (map_to_list (Own <$> t)) = true).
  { apply forallb_forall. intros [k x] Hin%list_elem_of_In%elem_of_map_to_list.
    rewrite lookup_fmap in Hin. destruct (t !! k) as [w|]; [|done].
    injection Hin as <-. apply bool_decide_eq_true_2. simpl. eauto. }
  rewrite Hall. f_equal. apply map_eq. intros k.
  rewrite lookup_omap, lookup_fmap. by destruct (t !! k).
Qed.

Section Host.
Context `{Js.Host}.

Lemma assign_throws b k x error :
  assign b k x = Threw error → ∃ ename emessage, error = ErrorInstance ename emessage.
Proof.
  unfold assign, read_only, restricted. intros Hassign.
  repeat case_match; simplify_eq; eauto.
Qed.

Lemma applyParamMap_throws args entries t0 error :
  applyParamMap args entries t0 = Threw error →
  ∃ ename emessage, error = ErrorInstance ename emessage.
Proof.
  revert t0. induction entries as [|[mcpParam methodParam] rest IH]; intros t0;
    simpl; [done|].
  destruct (has_property mcpParam args) as [present|e] eqn:Hin; simpl.
  - destruct present; [|apply IH].
    destruct (assign t0 methodParam (get args mcpParam)) as [t1|e] eqn:Hassign; simpl.
    + apply IH.
    + intros [= <-]. by eapply assign_throws.
  - intros [= <-]. destruct args; simplify_eq/=; eauto.
Qed.

(** The argument transformation throws nothing but [Error] instances. *)
Lemma transformArgs_throws args tool error :
  transformArgs args tool = Threw error →
  ∃ ename emessage, error = ErrorInstance ename emessage.
Proof.
  unfold transformArgs. destruct (negb (truthy args) || _); [done|].
  destruct (paramMap tool) as [entries|].
  - destruct (applyParamMap args entries (None, ∅)) as [t|e] eqn:Hrun; simpl.
    + by destruct ((map_to_list t.2).*1) as [|? [|? ?]].
    + intros [= <-]. by eapply applyParamMap_throws.
  - destruct (typeof_object args && negb (isArray args)); [|done].
    by destruct (Object_keys args) as [|? [|? ?]].
Qed.

(** C2.  The argument transformation on names that every object inherits.
    The parameter map of [constructor_tool] expects an argument called
    [constructor]; the call [{a: 1}] does not give it, yet the method
    receives the [Object] function that the arguments inherit under that
    name, where the rule of the design omits an absent key and passes the
    empty object.  The parameter map of [proto_tool] sends [a] to the target
    [__proto__]; the call gives [a], yet the assignment runs the prototype
    setter, which ignores the number, and the method receives the empty
    object, where the rule passes the one mapped value, [1]. *)
Theorem transformArgs_inherited_names :
  transformArgs (VObj {["a" := VNum 1]}) constructor_tool
  = Returned (Member ObjectPrototype "constructor")
  ∧ transformArgs (VObj {["a" := VNum 1]}) proto_tool = Returned (Plain (VObj ∅)).
Proof. split; vm_compute; reflexivity. Qed.

(** C10.  Arrays under a tool that declares no parameter map: the empty
    array has no key and becomes [undefined]; every non-empty array, one
    with a single element included, is passed on as it is. *)
Theorem transformArgs_arrays (tool : McpToolMetadata) :
  paramMap tool = None →
  transformArgs (VArr []) tool = Returned VUndefined
  ∧ ∀ x xs, transformArgs (VArr (x :: xs)) tool = Returned (VArr (x :: xs)).
Proof.
  intros Hmap. split; [done|]. intros x xs. unfold transformArgs. by rewrite Hmap.
Qed.

Section Runtime.
Variable JSON_stringify : value → outcome value.

Lemma formatToolResult_pass (props : gmap string value) :
  is_Some (props !! "content") →
  formatToolResult JSON_stringify (VObj props) = Returned (VObj props).
Proof.
  intros Hcontent. unfold formatToolResult. simpl. by rewrite bool_decide_eq_true_2.
Qed.

Lemma formatToolResult_wrap (result : value) :
  (∀ props, result = VObj props → props !! "content" = None) →
  formatToolResult JSON_stringify result
  = text ← JSON_stringify result; mret (text_result text).
Proof.
  intros Hplain. unfold formatToolResult.
  destruct result as [| | | | | | |xs|props]; try by destruct (truthy _).
  - simpl. by rewrite (bool_decide_eq_false_2 _ Js.Array_prototype_content).
  - simpl. rewrite (Hplain props eq_refl).
    by rewrite bool_decide_eq_false_2 by (by intros [? ?]).
Qed.

(** C5.  A result that is an object with a [content] property goes to
    the transport as it is.  Any other result (an object without that
    property, an array, a string, another primitive, [null],
    [undefined]) is handed to [JSON.stringify]: when that returns, the
    result is wrapped into a response whose [content] is one block of type
    [text] holding what it returned; when it throws, normalization throws
    the same. *)
Theorem formatToolResult_shapes :
  (∀ props, is_Some (props !! "content") →
            formatToolResult JSON_stringify (VObj props) = Returned (VObj props))
  ∧ (∀ result,
       (∀ props, result = VObj props → props !! "content" = None) →
       (∀ text,
          JSON_stringify result = Returned text →
          formatToolResult JSON_stringify result
          = Returned
              (VObj {[ "content" :=
                         VArr [VObj (<["type" := VStr "text"]> {[ "text" := text ]})] ]}))
       ∧ (∀ error,
            JSON_stringify result = Threw error →
            formatToolResult JSON_stringify result = Threw error)).
Proof.
  split; [apply formatToolResult_pass|].
  intros result Hplain. rewrite (formatToolResult_wrap result Hplain).
  split; [intros text ->|intros error ->]; done.
Qed.

(** C3.  An exception that gets out of the call handler.  When the method
    of a tool throws a [Symbol], the [catch] block of the callback throws in
    its turn, while it writes the log line: a template literal does not
    convert a [Symbol].  The call ends with that [TypeError], no response is
    returned and nothing is logged. *)
Theorem toolCallback_symbol_escapes tool methodRef args methodArgs description :
  transformArgs args tool = Returned methodArgs →
  methodRef methodArgs = Threw (ThrownValue (VSymbol description)) →
  toolCallback JSON_stringify tool methodRef args
  = (Threw (ErrorInstance "TypeError" "Cannot convert a Symbol value to a string"),
     []).
Proof.
  intros Hargs Hthrows. unfold toolCallback, try_catch, invoke.
  rewrite Hargs. simpl. by rewrite Hthrows.
Qed.

End Runtime.

End Host.

End DispatcherFacts.

Module DispatcherCases.
Import JsValue McpService Terms Cases DispatcherFacts.
#[local] Existing Instance Js.ascii_host.

Lemma transformArgs_arrays_witness :
  transformArgs (VArr []) plain_tool = Returned VUndefined
  ∧ transformArgs (VArr [VNum 7]) plain_tool = Returned (VArr [VNum 7]).
Proof.
  destruct (transformArgs_arrays plain_tool eq_refl) as [Hempty Hkept].
  split; [exact Hempty|apply Hkept].
Defined.

(** C5, as worded.  A [BigInt] is a primitive without a [content]
    property, and it is not wrapped: [JSON.stringify] refuses it. *)
Lemma bigint_not_wrapped : ¬ wrapped stringify_integer (VBigInt 1).
Proof. intros [text Hwrapped]. vm_compute in Hwrapped. discriminate Hwrapped. Qed.

Lemma formatToolResult_shapes_witness :
  formatToolResult stringify_integer (VObj {["content" := VArr []]})
  = Returned (VObj {["content" := VArr []]})
  ∧ formatToolResult stringify_integer (VNum 123)
    = Returned
        (VObj {[ "content" :=
                   VArr [VObj (<["type" := VStr "text"]> {[ "text" := VStr "123" ]})] ]})
  ∧ formatToolResult stringify_integer (VBigInt 1)
    = Threw (ErrorInstance "TypeError" "Do not know how to serialize a BigInt").
Proof.
  destruct (formatToolResult_shapes stringify_integer) as [Hpass Hwrap].
  split; [|split].
  - apply Hpass. rewrite lookup_singleton_eq. by eexists.
  - apply (Hwrap (VNum 123)); [intros props Hobj; discriminate Hobj|reflexivity].
  - apply (Hwrap (VBigInt 1)); [intros props Hobj; discriminate Hobj|reflexivity].
Defined.

Lemma toolCallback_symbol_escapes_witness :
  toolCallback stringify_integer explode_tool symbol_method (VObj {["x" := VNum 1]})
  = (Threw (ErrorInstance "TypeError" "Cannot convert a Symbol value to a string"),
     []).
Proof.
  apply (toolCallback_symbol_escapes stringify_integer explode_tool symbol_method
           (VObj {["x" := VNum 1]}) (VNum 1) "boom"); reflexivity.
Defined.

(** The end-to-end scenario of a tool whose implementation throws. *)
Example explode_call :
  toolCallback stringify_integer explode_tool explode_method (VObj {["x" := VNum 1]})
  = (Returned (text_result (VStr "Error: boom")),
     [(LevelError, "Error executing tool explode: Error: boom")]).
Proof. vm_compute. reflexivity. Qed.

End DispatcherCases.

Module CatalogCases.
Import JsValue Dto Fs RegistryService RegistryTools Terms Cases CatalogFacts.

(** The end-to-end scenario of registry "Demo": one component, [Button],
    with one documentation path and one example path; [Empty] is left out. *)
Example demo_catalog_discovered : Demo.catalog = demo_registries.
Proof. vm_compute. reflexivity. Qed.

Lemma lenient_reads_witness :
  getFileContent Demo.fs "/w/src/components/ui/Button/missing.md" = ""
  ∧ getFileContent Demo.fs "/w/src/components/ui/Button" = ""
  ∧ getComponentsByRegistryName demo_registries "Nope" = [].
Proof.
  destruct (lenient_reads Demo.fs demo_registries) as [Hfile Hregistry].
  split; [|split].
  - apply Hfile. left. vm_compute. reflexivity.
  - apply Hfile. right. vm_compute. reflexivity.
  - apply Hregistry. intros r Hr. apply list_elem_of_singleton in Hr as ->.
    simpl. discriminate.
Defined.

Lemma unknown_names_not_found_witness :
  get_registry demo_registries "Nope"
  = Returned (text_result (VStr "Registry 'Nope' not found"))
  ∧ get_component_docs demo_registries Demo.fs "Demo" "Card"
    = Returned (text_result (VStr "Component 'Card' not found in registry 'Demo'"))
  ∧ get_component_stories demo_registries Demo.fs "Nope" "Button"
    = Returned (text_result (VStr "Component 'Button' not found in registry 'Nope'")).
Proof.
  destruct (unknown_names_not_found demo_registries Demo.fs) as [Hregistry Hcomponent].
  split; [|split].
  - apply Hregistry. intros r Hr. apply list_elem_of_singleton in Hr as ->.
    simpl. discriminate.
  - apply (Hcomponent "Demo" "Card"). intros r cs c Hr _ Hcs Hc.
    apply list_elem_of_singleton in Hr as ->. injection Hcs as <-.
    apply list_elem_of_singleton in Hc as ->. simpl. discriminate.
  - apply (Hcomponent "Nope" "Button"). intros r cs c Hr Hname.
    apply list_elem_of_singleton in Hr as ->. simpl in Hname. discriminate.
Defined.

Lemma get_component_docs_outcomes_witness :
  get_component_docs demo_registries Demo.fs "Demo" "Button"
  = respond (docs_text Demo.fs "Button" ["/w/src/components/ui/Button/readme.md"]).
Proof.
  destruct (get_component_docs_outcomes demo_registries Demo.fs "Demo" "Button" button
              eq_refl) as (Hdocs & _).
  by apply Hdocs.
Defined.

End CatalogCases.

(** ** The catalog under add, update and delete *)

Module CatalogOperations.
Import Dto Fs RegistryService Terms Cases MoreTerms CatalogFacts.

Lemma getRegistryByName_app registries more n :
  getRegistryByName (registries ++ more) n
  = match getRegistryByName registries n with
    | Some registry => Some registry
    | None => getRegistryByName more n
    end.
Proof.
  unfold getRegistryByName. induction registries as [|r rs IH]; simpl; [done|].
  by destruct (bool_decide (registry_name r = n)).
Qed.

Lemma getRegistryByName_none registries n :
  getRegistryByName registries n = None → registry_absent registries n.
Proof.
  intros Hnone r Hr Hname. unfold getRegistryByName in Hnone.
  induction registries as [|r0 rs IH]; [by apply elem_of_nil in Hr|].
  simpl in Hnone. destruct (bool_decide (registry_name r0 = n)) eqn:Hr0; [done|].
  apply bool_decide_eq_false in Hr0.
  apply elem_of_cons in Hr as [->|Hr]; [done|by apply IH].
Qed.

(** X1.  Lookup by name is sound and complete: it finds nothing exactly when no
    registry of the catalog carries the name, and what it finds is a
    registry of the catalog with that name. *)
Theorem getRegistryByName_sound_complete registries n :
  (getRegistryByName registries n = None ↔ registry_absent registries n)
  ∧ (∀ registry, getRegistryByName registries n = Some registry →
                 registry ∈ registries ∧ registry_name registry = n).
Proof.
  split; [split|].
  - apply getRegistryByName_none.
  - apply getRegistryByName_absent.
  - intros registry [Hin Hname]%find_present.
    by apply bool_decide_eq_true in Hname.
Qed.

(** X2.  The catalog does not deduplicate: after [addRegistry], a name the
    catalog already held still resolves to the registry it resolved to
    before, and the added registry is found only under a name that was
    free. *)
Theorem addRegistry_lookup registries registry n :
  getRegistryByName (addRegistry registries registry) n
  = match getRegistryByName registries n with
    | Some held => Some held
    | None => if decide (registry_name registry = n) then Some registry else None
    end.
Proof.
  unfold addRegistry. rewrite getRegistryByName_app.
  destruct (getRegistryByName registries n); [done|].
  unfold getRegistryByName. simpl. by case_bool_decide; case_decide.
Qed.

(** X3.  [deleteRegistry] removes every registry of the given name and no other:
    afterwards the name resolves to nothing, and every other name resolves
    as before. *)
Theorem deleteRegistry_lookup registries n m :
  getRegistryByName (deleteRegistry registries n) m
  = if decide (m = n) then None else getRegistryByName registries m.
Proof.
  unfold deleteRegistry, getRegistryByName.
  induction registries as [|r rs IH]; simpl; [by case_decide|].
  rewrite filter_cons. destruct (decide (registry_name r ≠ n)) as [Hkeep|Hdrop]; simpl.
  - destruct (bool_decide (registry_name r = m)) eqn:Hr; [|done].
    apply bool_decide_eq_true in Hr. rewrite decide_False; [done|congruence].
  - apply dec_stable in Hdrop. rewrite IH. case_decide as Hm; [done|].
    rewrite bool_decide_eq_false_2; [done|congruence].
Qed.

(** X4.  Deleting a name the catalog does not hold changes nothing. *)
Theorem deleteRegistry_absent registries n :
  registry_absent registries n → deleteRegistry registries n = registries.
Proof.
  intros Habs. unfold deleteRegistry.
  induction registries as [|r rs IH]; [done|].
  rewrite filter_cons, decide_True by (apply Habs; left).
  f_equal. apply IH. intros r' Hr'. apply Habs. by right.
Qed.

Lemma findIndex_none registries n :
  registry_absent registries n →
  findIndex (λ registry, bool_decide (registry_name registry = n)) registries = None.
Proof.
  intros Habs. induction registries as [|r rs IH]; simpl; [done|].
  rewrite bool_decide_eq_false_2 by (apply Habs; left).
  rewrite IH; [done|]. intros r' Hr'. apply Habs. by right.
Qed.

(** X5.  [updateRegistry] is a no-op on a name the catalog does not hold.  On a
    name it holds, it replaces the registry that lookup finds (the first of
    that name) and leaves every other position, later registries of the same
    name included, as it was. *)
Theorem updateRegistry_first_match registries n updated :
  (registry_absent registries n → updateRegistry registries n updated = registries)
  ∧ (∀ held, getRegistryByName registries n = Some held →
       ∃ before after,
         registries = before ++ held :: after ∧ registry_absent before n ∧
         updateRegistry registries n updated = before ++ updated :: after).
Proof.
  split.
  - intros Habs. unfold updateRegistry. by rewrite findIndex_none.
  - unfold updateRegistry, getRegistryByName.
    induction registries as [|r rs IH]; intros held; simpl; [done|].
    destruct (bool_decide (registry_name r = n)) eqn:Hr.
    + intros [= <-]. exists [], rs. split; [done|]. split; [|done].
      by intros ? ?%elem_of_nil.
    + apply bool_decide_eq_false in Hr. intros Hfound.
      destruct (IH held Hfound) as (before & after & -> & Habs & Hupd).
      exists (r :: before), after. split; [done|]. split.
      * intros r' [->|Hr']%elem_of_cons; [done|by apply Habs].
      * destruct (findIndex _ (before ++ held :: after)) as [index|]; simpl;
          simpl in Hupd; by rewrite Hupd.
Qed.

Section Host.
Context `{Js.Host}.

Lemma discoverAndRegisterComponents_eq fs workspaceRoot registriesConfig :
  discoverAndRegisterComponents fs workspaceRoot registriesConfig
  = map (discovered_registry fs workspaceRoot) registriesConfig.
Proof.
  unfold discoverAndRegisterComponents.
  change (map (discovered_registry fs workspaceRoot) registriesConfig)
    with ([] ++ map (discovered_registry fs workspaceRoot) registriesConfig).
  generalize (@nil Registry) as registries.
  induction registriesConfig as [|c cs IH]; intros registries; simpl.
  - by rewrite app_nil_r.
  - rewrite IH. unfold addRegistry. by rewrite <- app_assoc.
Qed.

(** X6.  Construction-time discovery yields one registry per configuration
    entry, in configuration order and under the configured name, each with
    the components discovered for its layout; names are not deduplicated. *)
Theorem discoverAndRegisterComponents_map fs workspaceRoot registriesConfig :
  discoverAndRegisterComponents fs workspaceRoot registriesConfig
  = map (discovered_registry fs workspaceRoot) registriesConfig.
Proof. apply discoverAndRegisterComponents_eq. Qed.

End Host.

Lemma deleteRegistry_absent_witness :
  deleteRegistry demo_registries "Nope" = demo_registries.
Proof.
  apply (deleteRegistry_absent demo_registries "Nope").
  intros r Hr. apply list_elem_of_singleton in Hr as ->. simpl. discriminate.
Defined.

Lemma getRegistryByName_sound_complete_witness :
  registry_absent demo_registries "Nope"
  ∧ registry_name demo_shadow = "Demo".
Proof.
  destruct (getRegistryByName_sound_complete demo_registries "Nope") as [[Habs _] _].
  destruct (getRegistryByName_sound_complete [demo_shadow; other_registry] "Demo")
    as [_ Hfound].
  split.
  - apply Habs. vm_compute. reflexivity.
  - apply (Hfound demo_shadow). vm_compute. reflexivity.
Defined.

Lemma updateRegistry_first_match_witness :
  updateRegistry demo_registries "Nope" demo_shadow = demo_registries
  ∧ ∃ before after,
      demo_registries ++ [demo_shadow]
      = before ++ demo_registry :: after ∧ registry_absent before "Demo" ∧
      updateRegistry (demo_registries ++ [demo_shadow]) "Demo" other_registry
      = before ++ other_registry :: after.
Proof.
  split.
  - apply (updateRegistry_first_match demo_registries "Nope" demo_shadow).
    intros r Hr. apply list_elem_of_singleton in Hr as ->. simpl. discriminate.
  - apply (updateRegistry_first_match (demo_registries ++ [demo_shadow]) "Demo"
             other_registry).
    reflexivity.
Defined.

End CatalogOperations.

(** ** Discovery, entry by entry *)

Module DiscoveryFacts.
Import Dto Fs RegistryService Terms Cases MoreTerms RegistryServiceFacts ExampleResolution.

Section Host.
Context `{Js.Host}.

Lemma map_flat_map {A B C : Type} (f : B → C) (g : A → list B) (l : list A) :
  map f (flat_map g l) = flat_map (λ x, map f (g x)) l.
Proof. induction l as [|x l IH]; simpl; [done|]. by rewrite map_app, IH. Qed.

(** X7.  Which folders become components, and in which order: the declared
    sub-directories in declared order, within each the directory entries in
    listing order, keeping those for which some documentation file was
    found.  Nothing is sorted and nothing is merged. *)
Theorem discoverComponents_names fs config root :
  map name (discoverComponents fs config root)
  = flat_map
      (λ subDir,
         let base := Path.join [root; basePath config; componentDir config; subDir] in
         if existsSync fs base then
           filter (λ folder,
                     findMarkdownFiles fs (Path.join [base; folder])
                       (componentFileExtensions config) ≠ [])
             (getDirectories fs base)
         else [])
      (componentSubDirs config).
Proof.
  rewrite discoverComponents_unfold, map_flat_map. apply flat_map_ext. intros subDir.
  unfold discoverComponents_subDir.
  destruct (existsSync fs _); simpl; [|done].
  rewrite (fold_left_push _ (discoverComponents_folder_push fs config root _)).
  simpl. induction (getDirectories fs _) as [|folder folders IH]; simpl; [done|].
  rewrite map_app, IH, filter_cons. unfold discoverComponents_folder.
  destruct (decide _) as [Hdocs|Hdocs].
  - destruct (findMarkdownFiles fs _ (componentFileExtensions config)); done.
  - apply dec_stable in Hdocs. by rewrite Hdocs.
Qed.

Lemma discoverComponents_elem fs config root c :
  c ∈ discoverComponents fs config root →
  ∃ docs,
    docs ≠ [] ∧
    c = {| name := name c;
           markdownFilePaths := Some docs;
           storyFilePaths :=
             let storyFilePaths := findStoryFiles fs (name c) config root in
             if (0 <? length storyFilePaths)%nat then Some storyFilePaths else None |}.
Proof.
  rewrite discoverComponents_unfold.
  intros (subDir & _ & Hc)%elem_of_flat_map.
  unfold discoverComponents_subDir in Hc.
  destruct (negb _); [by apply elem_of_nil in Hc|].
  rewrite (fold_left_push _ (discoverComponents_folder_push fs config root _)) in Hc.
  simpl in Hc. apply elem_of_flat_map in Hc as (folder & _ & Hc).
  unfold discoverComponents_folder in Hc.
  destruct (findMarkdownFiles fs _ (componentFileExtensions config))
    as [|p docs] eqn:Hdocs; simpl in Hc; [by apply elem_of_nil in Hc|].
  apply list_elem_of_singleton in Hc. subst c. simpl. by exists (p :: docs).
Qed.

(** X8.  A discovered component's example paths are what [findStoryFiles]
    resolves for its name; when that is nothing the field is absent, never
    an empty list. *)
Theorem discovered_component_stories fs config root c :
  c ∈ discoverComponents fs config root →
  storyFilePaths c ≠ Some [] ∧
  default [] (storyFilePaths c) = findStoryFiles fs (name c) config root.
Proof.
  intros (docs & _ & Hc)%discoverComponents_elem. rewrite Hc. simpl.
  by destruct (findStoryFiles fs (name c) config root).
Qed.

Lemma findMarkdownFiles_loop_examined fs dir extensions files acc :
  findMarkdownFiles_loop fs dir extensions files acc
  = acc ++
    map (λ file, Path.join [dir; file])
      (filter (λ file,
                 statSync fs (Path.join [dir; file]) = Some RegularFile ∧
                 Path.extname file ∈ extensions)
         (examinable fs dir files)).
Proof.
  revert acc. induction files as [|file rest IH]; intros acc; simpl.
  - by rewrite app_nil_r.
  - destruct (statSync fs (Path.join [dir; file])) as [stat|] eqn:Hstat;
      [|by rewrite app_nil_r].
    rewrite IH, filter_cons, Hstat. unfold isFile, Js.array_includes.
    destruct (decide (stat = RegularFile)) as [->|Hne].
    + rewrite bool_decide_eq_true_2 by done.
      destruct (decide (Path.extname file ∈ extensions)) as [Hext|Hext].
      * rewrite bool_decide_eq_true_2, decide_True by done.
        simpl. by rewrite <- app_assoc.
      * rewrite bool_decide_eq_false_2 by done.
        rewrite decide_False; [done|]. by intros [_ ?].
    + rewrite bool_decide_eq_false_2 by done.
      rewrite decide_False; [done|]. intros [[= ?] _]. done.
Qed.

(** X9.  What [findMarkdownFiles] returns on any disk: a failed listing gives
    nothing; otherwise the scan stops at the first entry that cannot be
    examined, and of the entries before it the regular files with a
    configured extension are returned, in listing order. *)
Theorem findMarkdownFiles_examined fs dir extensions :
  findMarkdownFiles fs dir extensions
  = map (λ file, Path.join [dir; file])
      (filter (λ file,
                 statSync fs (Path.join [dir; file]) = Some RegularFile ∧
                 Path.extname file ∈ extensions)
         (examinable fs dir (default [] (readdirSync fs dir)))).
Proof.
  unfold findMarkdownFiles. destruct (readdirSync fs dir) as [files|]; [|done].
  by rewrite findMarkdownFiles_loop_examined.
Qed.

Lemma findFilesInDirectory_loop_examined fs dir componentName extensions items acc :
  findFilesInDirectory_loop fs dir componentName extensions items acc
  = acc ++
    map (λ item, Path.join [dir; item])
      (filter (λ item,
                 statSync fs (Path.join [dir; item]) = Some RegularFile ∧
                 Js.includes (Js.toLowerCase (Path.basename item (Path.extname item)))
                   (Js.toLowerCase componentName) = true ∧
                 Path.extname item ∈ extensions)
         (examinable fs dir items)).
Proof.
  revert acc. induction items as [|item rest IH]; intros acc; simpl.
  - by rewrite app_nil_r.
  - destruct (statSync fs (Path.join [dir; item])) as [stat|] eqn:Hstat;
      [|by rewrite app_nil_r].
    rewrite IH, filter_cons, Hstat. unfold isFile, Js.array_includes.
    destruct (decide (stat = RegularFile)) as [->|Hne].
    + rewrite bool_decide_eq_true_2 by done.
      destruct (Js.includes _ _) eqn:Hname;
        [rewrite andb_true_l|rewrite andb_false_l].
      * destruct (decide (Path.extname item ∈ extensions)) as [Hext|Hext].
        -- rewrite bool_decide_eq_true_2, decide_True by done.
           simpl. by rewrite <- app_assoc.
        -- rewrite bool_decide_eq_false_2 by done.
           rewrite decide_False; [done|]. by intros (_ & _ & ?).
      * rewrite decide_False; [done|]. by intros (_ & ? & _).
    + rewrite bool_decide_eq_false_2 by done.
      rewrite decide_False; [done|]. intros ([= ?] & _). done.
Qed.

(** X10.  What the flat-folder scan returns on any disk: as for the documentation
    scan, it stops at the first entry that cannot be examined; an entry
    listed after a dangling link is not collected. *)
Theorem findFilesInDirectory_examined fs dir componentName extensions :
  findFilesInDirectory fs dir componentName extensions
  = map (λ item, Path.join [dir; item])
      (filter (λ item,
                 statSync fs (Path.join [dir; item]) = Some RegularFile ∧
                 Js.includes (Js.toLowerCase (Path.basename item (Path.extname item)))
                   (Js.toLowerCase componentName) = true ∧
                 Path.extname item ∈ extensions)
         (examinable fs dir (default [] (readdirSync fs dir)))).
Proof.
  unfold findFilesInDirectory. destruct (readdirSync fs dir) as [items|]; [|done].
  by rewrite findFilesInDirectory_loop_examined.
Qed.

(** A readable documentation file listed after a dangling link is not
    found, and its folder is not admitted as a component. *)
Example dangling_link_hides_docs :
  findMarkdownFiles dangling_disk "/w/c/Card" [".md"] = []
  ∧ getFileContent dangling_disk "/w/c/Card/readme.md" = "# Card".
Proof. vm_compute. done. Qed.

End Host.

End DiscoveryFacts.

(** ** Extensions and substrings *)

Module MatchingFacts.
Import Dto Fs RegistryService Terms Cases MoreTerms ExampleResolution DiscoveryFacts.

Section Host.
Context `{Js.Host}.

Lemma lastIndexOfDot_drop (s : string) (i : nat) :
  Path.lastIndexOfDot s = Some i → Path.lastIndexOfDot (Js.drop i s) = Some 0.
Proof.
  revert i. induction s as [|c s IH]; intros i; simpl; [done|].
  destruct (Path.lastIndexOfDot s) as [j|] eqn:Hs.
  - intros [= <-]. simpl. by apply IH.
  - destruct (Ascii.eqb c ".") eqn:Hc; [|done].
    intros [= <-]. simpl. by rewrite Hs, Hc.
Qed.

(** [path.extname] answers with at most one segment: no dot after its
    first character. *)
Lemma extname_one_segment (name ext : string) :
  multi_segment ext → Path.extname name ≠ ext.
Proof.
  intros [i Hext] Heq. unfold Path.extname in Heq.
  destruct (Path.lastIndexOfDot name) as [[|j]|] eqn:Hname;
    try (subst ext; discriminate).
  destruct (String.eqb name ".."); [subst ext; discriminate|].
  apply lastIndexOfDot_drop in Hname. rewrite Heq, Hext in Hname. discriminate.
Qed.

(** X11.  An extension configured with more than one segment, such as
    [.stories.js], is never equal to what [path.extname] returns: with only
    such extensions configured, the documentation scan and the flat-folder
    scan return nothing, whatever the disk holds. *)
Theorem multi_segment_extensions_match_nothing extensions :
  Forall multi_segment extensions →
  (∀ fs dir, findMarkdownFiles fs dir extensions = [])
  ∧ (∀ fs dir componentName,
       findFilesInDirectory fs dir componentName extensions = []).
Proof.
  intros Hmulti.
  assert (Hnever : ∀ name, Path.extname name ∉ extensions).
  { intros name Hin. rewrite Forall_forall in Hmulti.
    by apply (extname_one_segment name (Path.extname name)); [apply Hmulti|]. }
  split.
  - intros fs dir. unfold findMarkdownFiles.
    destruct (readdirSync fs dir) as [files|]; [|done].
    rewrite findMarkdownFiles_loop_examined. simpl.
    induction (examinable fs dir files) as [|file rest IH]; [done|].
    rewrite filter_cons, decide_False; [done|]. intros [_ ?]. by eapply Hnever.
  - intros fs dir componentName. unfold findFilesInDirectory.
    destruct (readdirSync fs dir) as [items|]; [|done].
    rewrite findFilesInDirectory_loop_examined. simpl.
    induction (examinable fs dir items) as [|item rest IH]; [done|].
    rewrite filter_cons, decide_False; [done|]. intros (_ & _ & ?). by eapply Hnever.
Qed.

End Host.

#[local] Existing Instance Js.ascii_host.

Lemma multi_segment_extensions_match_nothing_witness :
  findMarkdownFiles Demo.fs "/w/src/components/ui/Button" [".stories.js"; ".stories.tsx"] = []
  ∧ findFilesInDirectory Demo.fs "/w/src/stories/basic" "Empty"
      [".stories.js"; ".stories.tsx"] = [].
Proof.
  destruct (multi_segment_extensions_match_nothing [".stories.js"; ".stories.tsx"])
    as [Hdocs Hflat].
  - repeat constructor; [by exists 7|by exists 7].
  - split; [apply Hdocs|apply Hflat].
Defined.

Lemma startsWith_spec (s t : string) :
  Js.startsWith s t = true ↔ ∃ post, s = t +:+ post.
Proof.
  unfold Js.startsWith. revert s. induction t as [|a t IH]; intros s; simpl.
  - split; [intros _; by exists s|by destruct s].
  - destruct s as [|b s]; simpl.
    + split; [done|by intros [? ?]].
    + destruct (Ascii.ascii_dec a b) as [->|Hne].
      * rewrite IH. split; intros [post Hpost]; exists post.
        -- by rewrite Hpost.
        -- by injection Hpost.
      * split; [done|]. intros [post [= ? ?]]. done.
Qed.

(** [s.includes(t)] holds exactly when [t] occurs in [s]. *)
Lemma includes_spec (s t : string) :
  Js.includes s t = true ↔ ∃ pre post, s = pre +:+ t +:+ post.
Proof.
  induction s as [|c s IH]; cbn [Js.includes].
  - rewrite orb_false_r, startsWith_spec. split.
    + intros [post ->]. by exists "", post.
    + intros (pre & post & Heq). destruct pre; [by exists post|discriminate].
  - rewrite orb_true_iff, startsWith_spec, IH. split.
    + intros [[post ->]|(pre & post & ->)].
      * by exists "", post.
      * by exists (String c pre), post.
    + intros ([|c' pre] & post & Heq).
      * left. by exists post.
      * right. injection Heq as -> ->. by exists pre, post.
Qed.

(** X12.  The dedicated-folder scan is a substring test: a path is collected
    exactly when it joins the folder with the name of a listed regular file
    in which some configured extension occurs anywhere, at the end or
    not. *)
Theorem findFilesInDirectoryRoot_substring fs dir extensions p :
  p ∈ findFilesInDirectoryRoot fs dir extensions
  ↔ ∃ items item ext pre post,
      readdirSyncWithFileTypes fs dir = Some items ∧ item ∈ items ∧
      dirent_type item = RegularFile ∧ ext ∈ extensions ∧
      dirent_name item = pre +:+ ext +:+ post ∧
      p = Path.join [dir; dirent_name item].
Proof.
  rewrite findFilesInDirectoryRoot_dedicated. unfold dedicated_tier.
  destruct (readdirSyncWithFileTypes fs dir) as [items|].
  - rewrite list_elem_of_fmap. split.
    + intros (item & -> & [[Hfile Hext] Hin]%list_elem_of_filter).
      apply Exists_exists in Hext as (ext & Hext & Hinc).
      apply includes_spec in Hinc as (pre & post & Hname).
      by exists items, item, ext, pre, post.
    + intros (? & item & ext & pre & post & [= <-] & Hin & Hfile & Hext & Hname & ->).
      exists item. split; [done|]. apply list_elem_of_filter. split; [|done].
      split; [done|]. apply Exists_exists. exists ext. split; [done|].
      apply includes_spec. by exists pre, post.
  - split; [by intros ?%elem_of_nil|]. by intros (? & ? & ? & ? & ? & ? & _).
Qed.

End MatchingFacts.

(** ** The dispatcher beyond objects *)

Module DispatcherMore.
Import JsValue McpService McpToolDecorator Terms Cases MoreTerms DispatcherFacts.

Section Host.
Context `{Js.Host}.

(** X13.  Arguments that are not objects.  A falsy value of any kind becomes
    [undefined].  A truthy primitive is passed as it is when no parameter
    map is declared, becomes the empty object under an empty parameter map,
    and makes the [in] test of the first entry throw a [TypeError] under any
    other parameter map. *)
Theorem transformArgs_non_objects (tool : McpToolMetadata) (args : value) :
  (truthy args = false → transformArgs args tool = Returned VUndefined)
  ∧ (truthy args = true → typeof_object args = false →
     (paramMap tool = None → transformArgs args tool = Returned args)
     ∧ (paramMap tool = Some [] → transformArgs args tool = Returned (VObj ∅))
     ∧ (∀ mcpParam methodParam rest,
          paramMap tool = Some ((mcpParam, methodParam) :: rest) →
          transformArgs args tool
          = Threw (ErrorInstance "TypeError"
                     ("Cannot use 'in' operator to search for '" +:+ mcpParam
                      +:+ "' in " +:+ String_ args)))).
Proof.
  split.
  - intros Hfalsy. unfold transformArgs. by rewrite Hfalsy.
  - intros Htruthy Hprim. unfold transformArgs. rewrite Htruthy, Hprim. simpl.
    split; [|split].
    + by intros ->.
    + intros ->. simpl. rewrite map_to_list_empty. simpl.
      unfold assembled. simpl. by rewrite <- (fmap_empty Own), own_values_fmap.
    + intros mcpParam methodParam rest ->. simpl.
      by destruct args.
Qed.

(** X25.  Objects under a tool that declares no parameter map, and calls
    without arguments under any tool.  No arguments, or an object with no
    key: [undefined].  An object with exactly one key: that key's value;
    with more than one key: the object itself. *)
Theorem transformArgs_unmapped_objects (tool : McpToolMetadata) :
  (transformArgs VUndefined tool = Returned VUndefined
   ∧ transformArgs (VObj ∅) tool = Returned VUndefined)
  ∧ (paramMap tool = None →
     (∀ (k : string) (v : value), transformArgs (VObj {[k := v]}) tool = Returned v)
     ∧ (∀ props, 1 < size props →
                 transformArgs (VObj props) tool = Returned (VObj props))).
Proof.
  split.
  - split; [done|]. unfold transformArgs. by rewrite empty_object_test.
  - intros Hmap. split.
    + intros k v. unfold transformArgs.
      rewrite empty_object_test, bool_decide_eq_false_2, Hmap
        by apply insert_non_empty.
      simpl negb. simpl orb. simpl andb. cbv iota.
      rewrite Object_keys_singleton. simpl. by rewrite lookup_singleton_eq.
    + intros props Hsize. unfold transformArgs.
      rewrite empty_object_test, bool_decide_eq_false_2, Hmap.
      2: { intros ->. rewrite map_size_empty in Hsize. lia. }
      simpl negb. simpl orb. simpl andb. cbv iota.
      assert (Hmany := Object_keys_many props).
      destruct (Object_keys (VObj props)) as [|k [|? ?]]; try done.
      destruct Hmany. lia.
Qed.

(** Under [Object.prototype] an assignment to a name other than
    [__proto__] gives the object a property of its own. *)
Lemma assign_create (props : gmap string property_value) k x :
  k ≠ "__proto__" → assign (None, props) k x = Returned (None, <[k := x]> props).
Proof.
  intros Hk%String.eqb_neq. unfold assign. simpl. rewrite Hk.
  by destruct (bool_decide _).
Qed.

(** On an object whose keys cover every inherited name that the parameter
    map reads, and for targets other than [__proto__], the loop builds
    plain data: the mapped object over what was there. *)
Lemma applyParamMap_mapped (props : gmap string value) entries (t0 : gmap string value) :
  (∀ ext k, (ext, k) ∈ entries → ext ∈ Object_prototype_keys → is_Some (props !! ext)) →
  (∀ ext k, (ext, k) ∈ entries → k ≠ "__proto__") →
  applyParamMap (VObj props) entries (None, Own <$> t0)
  = Returned (None, Own <$> (mapped_object props entries ∪ t0)).
Proof.
  unfold mapped_object. revert t0.
  induction entries as [|[mcpParam methodParam] rest IH]; intros t0 Hown Htarget; simpl.
  - by rewrite (left_id_L (∅ : gmap string value) (∪)).
  - assert (Hk : methodParam ≠ "__proto__") by (apply (Htarget mcpParam); left).
    destruct (props !! mcpParam) as [v|] eqn:Hv; simpl.
    + rewrite assign_create, <- fmap_insert by done. simpl.
      rewrite IH.
      * do 2 f_equal. change (list_omap _ _ ?f rest) with (omap f rest).
        rewrite list_to_map_app. simpl.
        by rewrite insert_empty, <- (assoc_L (∪)), <- insert_union_singleton_l.
      * intros ext k Hin. apply (Hown ext k). by right.
      * intros ext k Hin. apply (Htarget ext k). by right.
    + rewrite (bool_decide_eq_false_2 (mcpParam ∈ Object_prototype_keys)).
      2: { intros Hin.
           destruct (Hown mcpParam methodParam) as [v' Hv']; [left|done|congruence]. }
      simpl. apply IH.
      * intros ext k Hin. apply (Hown ext k). by right.
      * intros ext k Hin. apply (Htarget ext k). by right.
Qed.

(** What the method receives of a plain object that the loop built. *)
Lemma unwrap_single_passed (t : gmap string value) :
  match (map_to_list (Own <$> t)).*1 with
  | [key] => Returned (pass (default (Own VUndefined) ((Own <$> t) !! key)))
  | _ => Returned (assembled (None, Own <$> t))
  end = Returned (Plain (unwrap_single t)).
Proof.
  unfold unwrap_single.
  destruct (map_to_list t) as [|[k v] [|? ?]] eqn:Hlist.
  - apply map_to_list_empty_iff in Hlist as ->.
    rewrite fmap_empty, map_to_list_empty. simpl.
    unfold assembled. simpl. by rewrite <- (fmap_empty Own), own_values_fmap.
  - assert (Ht : t = {[k := v]}).
    { rewrite <- (list_to_map_to_list t), Hlist. simpl. by rewrite insert_empty. }
    rewrite Ht, map_fmap_singleton, map_to_list_singleton. simpl.
    by rewrite lookup_singleton_eq.
  - assert (Hlen : length (map_to_list (Own <$> t)).*1 = S (S (length l))).
    { by rewrite length_fmap, length_map_to_list, map_size_fmap,
        <- length_map_to_list, Hlist. }
    destruct ((map_to_list (Own <$> t)).*1) as [|? [|? ?]]; try done.
    unfold assembled. simpl. by rewrite own_values_fmap.
Qed.

(** X18.  The parameter map on an object, exactly, for a map that names no
    target [__proto__] and an input that gives every external name of the
    map that [Object.prototype] defines: the call passes the mapped object,
    or its only value when it has exactly one key.  Where two entries share
    a target name, the later entry's value is the one passed. *)
Theorem transformArgs_mapped_object tool entries (props : gmap string value) :
  paramMap tool = Some entries → props ≠ ∅ →
  (∀ ext k, (ext, k) ∈ entries → ext ∈ Object_prototype_keys → is_Some (props !! ext)) →
  (∀ ext k, (ext, k) ∈ entries → k ≠ "__proto__") →
  transformArgs (VObj props) tool
  = Returned (unwrap_single (mapped_object props entries)).
Proof.
  intros Hmap Hne Hown Htarget. unfold transformArgs.
  rewrite empty_object_test, bool_decide_eq_false_2, Hmap by done.
  simpl negb. simpl orb. cbv iota.
  rewrite <- (fmap_empty Own).
  rewrite (applyParamMap_mapped props entries ∅ Hown Htarget).
  rewrite (right_id_L (∅ : gmap string value) (∪)).
  simpl mbind. apply unwrap_single_passed.
Qed.

Section Runtime.
Variable JSON_stringify : value → outcome value.

(** X14.  When the argument transformation itself throws, the method is not
    consulted: whatever the method, the call is answered with the error
    response for the transformation's exception, and logged once. *)
Theorem toolCallback_transform_fault tool methodRef args error :
  transformArgs args tool = Threw error →
  toolCallback JSON_stringify tool methodRef args
  = (Returned (text_result (VStr ("Error: " +:+ thrown_message error))),
     [(LevelError,
       "Error executing tool " +:+ tool_name tool +:+ ": " +:+ String_thrown error)]).
Proof.
  intros Hthrows. unfold toolCallback, try_catch, invoke. rewrite Hthrows.
  by destruct (transformArgs_throws _ _ _ Hthrows) as (ename & emessage & ->).
Qed.

Lemma text_result_content (text : value) :
  ∃ props, text_result text = VObj props ∧ is_Some (props !! "content").
Proof.
  unfold text_result. eexists. split; [done|]. rewrite lookup_singleton_eq. eauto.
Qed.

Lemma formatToolResult_cases (result : value) :
  (∃ props, result = VObj props ∧ is_Some (props !! "content")
            ∧ formatToolResult JSON_stringify result = Returned result)
  ∨ formatToolResult JSON_stringify result
    = text ← JSON_stringify result; mret (text_result text).
Proof.
  destruct result as [| | | | | | |xs|props];
    try (right; apply formatToolResult_wrap; by intros ? [=]).
  destruct (props !! "content") as [c|] eqn:Hc.
  - left. exists props. split; [done|]. split; [by rewrite Hc|].
    apply formatToolResult_pass. by rewrite Hc.
  - right. apply formatToolResult_wrap. by intros ? [= <-].
Qed.

(** X15.  Whenever result normalization returns, what it returns is an object
    with a [content] property, and normalizing that again gives it back;
    and it throws only what [JSON.stringify] throws on the result. *)
Theorem formatToolResult_idempotent (result : value) :
  (∀ response,
     formatToolResult JSON_stringify result = Returned response →
     (∃ props, response = VObj props ∧ is_Some (props !! "content"))
     ∧ formatToolResult JSON_stringify response = Returned response)
  ∧ (∀ error,
       formatToolResult JSON_stringify result = Threw error →
       JSON_stringify result = Threw error).
Proof.
  destruct (formatToolResult_cases result) as [(props & -> & Hcontent & Hpass)|Hwrap].
  - rewrite Hpass. split; [|done]. intros response [= <-]. eauto.
  - rewrite Hwrap. destruct (JSON_stringify result) as [text|e]; simpl.
    + split; [|done]. intros response [= <-].
      destruct (text_result_content text) as (props & Hprops & Hcontent).
      rewrite Hprops. split; [eauto|]. by apply formatToolResult_pass.
    + split; [done|]. by intros error [= <-].
Qed.

Lemma message_after_template (error : thrown) (shown : string) :
  template_of_thrown error = Returned shown →
  ∃ message, message_of_thrown error = Returned message.
Proof.
  destruct error as [ename emessage|v]; simpl; [eauto|].
  destruct v; simpl; eauto; done.
Qed.

(** X16.  Whatever the tool, the method and the arguments, a call ends in one
    of two ways.  Either it is answered with an object that has a [content]
    property, having written at most one log entry, at error level.  Or
    something was thrown in the [try] block that a template literal cannot
    convert to a string: the call then ends with the exception of that
    conversion and nothing is logged. *)
Theorem toolCallback_envelope tool methodRef args :
  (∃ props entries,
     toolCallback JSON_stringify tool methodRef args = (Returned (VObj props), entries)
     ∧ is_Some (props !! "content")
     ∧ (entries = [] ∨ ∃ msg, entries = [(LevelError, msg)]))
  ∨ (∃ error conversion,
       invoke JSON_stringify tool methodRef args = Threw error
       ∧ template_of_thrown error = Threw conversion
       ∧ toolCallback JSON_stringify tool methodRef args = (Threw conversion, [])).
Proof.
  unfold toolCallback, try_catch.
  destruct (invoke JSON_stringify tool methodRef args) as [response|error] eqn:Hbody.
  - left. unfold invoke in Hbody.
    destruct (transformArgs args tool) as [methodArgs|?]; [|done]. simpl in Hbody.
    destruct (methodRef methodArgs) as [result|?]; [|done]. simpl in Hbody.
    destruct (formatToolResult_cases result) as [(props & -> & Hcontent & Hpass)|Hwrap].
    + rewrite Hpass in Hbody. injection Hbody as <-.
      exists props, []. split; [done|]. split; [done|by left].
    + rewrite Hwrap in Hbody. destruct (JSON_stringify result) as [text|?]; [|done].
      simpl in Hbody. injection Hbody as <-.
      destruct (text_result_content text) as (props & -> & Hcontent).
      exists props, []. split; [done|]. split; [done|by left].
  - unfold report. destruct (template_of_thrown error) as [shown|conversion] eqn:Hshown.
    + left. destruct (message_after_template _ _ Hshown) as [message ->].
      destruct (text_result_content (VStr ("Error: " +:+ message))) as (props & -> & Hc).
      exists props. eexists. split; [done|]. split; [done|]. right. by eexists.
    + right. by exists error, conversion.
Qed.



Lemma registerTool_steps_origin o tools d t :
  t ∈ server_tools (reached (fold_left (registerTool_step JSON_stringify o) tools d)) →
  t ∈ server_tools (reached d) ∨
  ∃ tool methodRef,
    tool ∈ tools ∧ members o (methodName tool) = Some (Method methodRef) ∧
    reg_name t = tool_name tool ∧
    reg_callback t = toolCallback JSON_stringify tool methodRef.
Proof.
  revert d. induction tools as [|tool tools IH]; intros d; simpl; [by left|].
  intros [Ht|(tool' & m & Hin & ?)]%IH.
  - destruct d as [st|st e]; [|by left]. simpl in Ht.
    destruct (members o (methodName tool)) as [[methodRef|]|] eqn:Hmember;
      [|by left|by left].
    unfold registerTool in Ht. simpl in Ht.
    destruct (bool_decide _ || bool_decide _); simpl in Ht; [by left|].
    apply elem_of_app in Ht as [Ht|Ht]; [by left|].
    apply list_elem_of_singleton in Ht as ->. right.
    exists tool, methodRef. split; [left|done].
  - right. exists tool', m. split; [by right|done].
Qed.

Lemma registerProvider_steps_origin providers d t :
  t ∈ server_tools (reached (fold_left (registerProvider_step JSON_stringify) providers d)) →
  t ∈ server_tools (reached d)
  ∨ ∃ tool methodRef, declared_by JSON_stringify providers t tool methodRef.
Proof.
  revert d. induction providers as [|wrapper providers IH]; intros d; simpl;
    [by left|].
  intros [Ht|(tool & m & w & o & Hw & ?)]%IH.
  - destruct d as [st|st e]; [|by left]. simpl in Ht.
    destruct (instance wrapper) as [| |o] eqn:Hinstance; [by left|by left|].
    apply registerTool_steps_origin in Ht as [Ht|(tool & m & Hin & Hm & Hn & Hc)].
    + left. simpl in Ht. by destruct (0 <? _)%nat.
    + right. exists tool, m, wrapper, o. split; [left|done].
  - right. exists tool, m, w, o. split; [by right|done].
Qed.

Lemma discovery_reached providers :
  server_tools (reached (discoverAndRegisterTools JSON_stringify providers))
  = server_tools
      (reached (fold_left (registerProvider_step JSON_stringify) providers
                  (Running (logger_log "Starting MCP tool discovery..."
                              {| server_tools := []; log := []; toolCount := 0 |})))).
Proof. unfold discoverAndRegisterTools. by destruct (fold_left _ _ _). Qed.

(** X26.  Every tool the server holds after discovery, completed or not, was
    declared by a provider's class and is bound to that provider's method;
    when that method throws an [Error] on the transformed arguments, the
    callback logs one error entry and returns a single text block reading
    [Error: ] followed by the error's message. *)
Theorem registered_tool_reports_errors providers t :
  t ∈ server_tools (reached (discoverAndRegisterTools JSON_stringify providers)) →
  ∃ tool methodRef,
    declared_by JSON_stringify providers t tool methodRef ∧
    ∀ args methodArgs ename emessage,
      transformArgs args tool = Returned methodArgs →
      methodRef methodArgs = Threw (ErrorInstance ename emessage) →
      reg_callback t args
      = (Returned (text_result (VStr ("Error: " +:+ emessage))),
         [(LevelError,
           "Error executing tool " +:+ tool_name tool +:+ ": "
           +:+ String_thrown (ErrorInstance ename emessage))]).
Proof.
  rewrite discovery_reached.
  intros [Ht|(tool & methodRef & Hdecl)]%registerProvider_steps_origin;
    [by apply elem_of_nil in Ht|].
  assert (Hcb : reg_callback t = toolCallback JSON_stringify tool methodRef)
    by (by destruct Hdecl as (? & ? & ? & ? & ? & ? & ? & ?)).
  exists tool, methodRef. split; [done|].
  intros args methodArgs ename emessage Hargs Hthrows. rewrite Hcb.
  unfold toolCallback, try_catch, invoke. rewrite Hargs. simpl. by rewrite Hthrows.
Qed.







End Runtime.

End Host.

#[local] Existing Instance Js.ascii_host.

Lemma transformArgs_mapped_object_witness :
  transformArgs (VObj (<["a" := VNum 1]> {["b" := VNum 2]})) merging_tool
  = Returned (VNum 2).
Proof.
  rewrite (transformArgs_mapped_object merging_tool [("a", "x"); ("b", "x")]).
  - vm_compute. reflexivity.
  - reflexivity.
  - apply insert_non_empty.
  - intros ext k Hin Hinherited. exfalso.
    apply elem_of_cons in Hin as [[= -> ->]|Hin];
      [|apply list_elem_of_singleton in Hin as [= -> ->]];
      vm_compute in Hinherited;
      repeat (apply elem_of_cons in Hinherited as [Hinherited|Hinherited];
              [discriminate|]);
      by apply elem_of_nil in Hinherited.
  - intros ext k Hin.
    apply elem_of_cons in Hin as [[= -> ->]|Hin];
      [|apply list_elem_of_singleton in Hin as [= -> ->]]; discriminate.
Defined.

Lemma transformArgs_unmapped_objects_witness :
  transformArgs (VObj {["x" := VNum 1]}) plain_tool = Returned (VNum 1)
  ∧ transformArgs (VObj (<["a" := VNum 1]> {["b" := VNum 2]})) plain_tool
    = Returned (VObj (<["a" := VNum 1]> {["b" := VNum 2]})).
Proof.
  destruct (transformArgs_unmapped_objects plain_tool) as (_ & Hplain).
  destruct (Hplain eq_refl) as [Hone Hmany].
  split; [apply Hone|].
  apply Hmany. rewrite map_size_insert_None by done.
  rewrite map_size_singleton. lia.
Defined.

Lemma transformArgs_non_objects_witness :
  transformArgs (VStr "") mapped_tool = Returned VUndefined
  ∧ transformArgs (VNum 7) plain_tool = Returned (VNum 7)
  ∧ transformArgs (VStr "abc") mapped_tool
    = Threw (ErrorInstance "TypeError"
               "Cannot use 'in' operator to search for 'ext' in abc").
Proof.
  split; [|split].
  - by apply (transformArgs_non_objects mapped_tool (VStr "")).
  - destruct (transformArgs_non_objects plain_tool (VNum 7)) as [_ Htruthy].
    by apply Htruthy.
  - destruct (transformArgs_non_objects mapped_tool (VStr "abc")) as [_ Htruthy].
    destruct (Htruthy eq_refl eq_refl) as (_ & _ & Hthrows).
    by apply (Hthrows "ext" "internal" []).
Defined.

Lemma toolCallback_transform_fault_witness :
  toolCallback stringify_integer mapped_tool explode_method (VStr "abc")
  = (Returned (text_result
       (VStr "Error: Cannot use 'in' operator to search for 'ext' in abc")),
     [(LevelError,
       "Error executing tool read_file: TypeError: Cannot use 'in' operator to search for 'ext' in abc")]).
Proof.
  exact (toolCallback_transform_fault stringify_integer mapped_tool explode_method
           (VStr "abc")
           (ErrorInstance "TypeError"
              "Cannot use 'in' operator to search for 'ext' in abc")
           eq_refl).
Defined.

Lemma formatToolResult_idempotent_witness :
  formatToolResult stringify_integer
    (text_result (VStr "123")) = Returned (text_result (VStr "123"))
  ∧ stringify_integer (VBigInt 1)
    = Threw (ErrorInstance "TypeError" "Do not know how to serialize a BigInt").
Proof.
  destruct (formatToolResult_idempotent stringify_integer (VNum 123)) as [Hreturns _].
  destruct (formatToolResult_idempotent stringify_integer (VBigInt 1)) as [_ Hthrows].
  split.
  - apply (Hreturns (text_result (VStr "123"))). reflexivity.
  - apply Hthrows. reflexivity.
Defined.


Lemma registered_tool_reports_errors_witness :
  ∃ tool methodRef,
    declared_by stringify_integer explode_providers
      (explode_registered stringify_integer) tool methodRef.
Proof.
  destruct (registered_tool_reports_errors stringify_integer explode_providers
              (explode_registered stringify_integer))
    as (tool & methodRef & Hdeclared & _).
  - apply list_elem_of_here.
  - by exists tool, methodRef.
Defined.

End DispatcherMore.

(** ** Declared tools, from decorator to server *)

Module DecoratorFacts.
Import JsValue McpService McpToolDecorator Terms Cases MoreTerms.

Lemma lookup_chain_insert_ne (own : gmap string nat) c array chain :
  c ∉ chain → lookup_chain (<[c := array]> own) chain = lookup_chain own chain.
Proof.
  induction chain as [|d chain IH]; intros Hc; simpl; [done|].
  rewrite lookup_insert_ne by (intros ->; apply Hc; left).
  rewrite IH; [done|]. intros Hin. apply Hc. by right.
Qed.

(** Decorating a class that finds an array pushes onto that array, leaves
    it the array of the class, and changes what no other class owns. *)
Lemma decorate_found C declarations store array tools :
  getMetadata store C = Some array → arrays store !! array = Some tools →
  getMetadata (decorate C declarations store) C = Some array
  ∧ arrays (decorate C declarations store) !! array
    = Some (tools ++ map declared declarations)
  ∧ ∀ chain, class_name C ∉ chain →
             lookup_chain (own (decorate C declarations store)) chain
             = lookup_chain (own store) chain.
Proof.
  revert store tools.
  induction declarations as [|d ds IH]; intros store tools Hfound Harray; simpl.
  - by rewrite app_nil_r.
  - destruct (IH (McpTool d.1 C d.2 store) (tools ++ [declared d]))
      as (Hfound' & Harray' & Hothers).
    + unfold McpTool. rewrite Hfound. unfold getMetadata. simpl.
      by rewrite lookup_insert_eq.
    + unfold McpTool. rewrite Hfound. simpl.
      by rewrite list_lookup_alter_eq, Harray.
    + unfold decorate in *. split; [exact Hfound'|].
      split; [by rewrite Harray', <- app_assoc|].
      intros chain Hchain. rewrite (Hothers chain Hchain).
      unfold McpTool. rewrite Hfound. simpl. by apply lookup_chain_insert_ne.
Qed.

(** X19.  What the decorators leave on a class.  On a class that finds no
    metadata, its own or inherited, they leave one declaration each, in the
    order they are applied.  On a class that extends a decorated class they
    push onto the array of that class, which the two classes share from then
    on: the class and the class it extends both carry the inherited
    declarations followed by the new ones. *)
Theorem decorators_share_metadata store C declarations :
  (getMetadata store C = None → declarations ≠ [] →
   tools_of (decorate C declarations store) C = Some (map declared declarations))
  ∧ (∀ P tools,
       ancestors C = class_name P :: ancestors P →
       class_name C ∉ ancestors C →
       own store !! class_name C = None →
       tools_of store P = Some tools →
       tools_of (decorate C declarations store) C
       = Some (tools ++ map declared declarations)
       ∧ tools_of (decorate C declarations store) P
         = Some (tools ++ map declared declarations)).
Proof.
  split.
  - intros Hnone Hsome. destruct declarations as [|d ds]; [done|]. simpl.
    destruct (decorate_found C ds (McpTool d.1 C d.2 store)
                (length (arrays store)) [declared d])
      as (Hfound & Harray & _).
    + unfold McpTool. rewrite Hnone. unfold getMetadata. simpl.
      by rewrite lookup_insert_eq.
    + unfold McpTool. rewrite Hnone. simpl. by apply list_lookup_middle.
    + unfold tools_of, decorate in *. rewrite Hfound. simpl. by rewrite Harray.
  - intros P tools Hextends Hacyclic Hown Htools.
    unfold tools_of in Htools.
    destruct (getMetadata store P) as [array|] eqn:Hparent; [|done].
    simpl in Htools.
    assert (Hchild : getMetadata store C = Some array).
    { unfold getMetadata in *. simpl. by rewrite Hown, Hextends. }
    destruct (decorate_found C declarations store array tools Hchild Htools)
      as (Hfound & Harray & Hothers).
    unfold tools_of. rewrite Hfound. simpl. split; [exact Harray|].
    unfold getMetadata in *. rewrite Hothers, Hparent; [exact Harray|].
    by rewrite <- Hextends.
Qed.

Lemma decorators_share_metadata_witness :
  tools_of (decorate mock_class user_declarations no_metadata) mock_class
  = Some (map declared user_declarations)
  ∧ tools_of (decorate admin_class admin_declarations
                (decorate mock_class user_declarations no_metadata)) mock_class
    = Some (map declared user_declarations ++ map declared admin_declarations).
Proof.
  split.
  - apply (decorators_share_metadata no_metadata mock_class user_declarations);
      [reflexivity|discriminate].
  - apply (decorators_share_metadata
             (decorate mock_class user_declarations no_metadata)
             admin_class admin_declarations).
    + reflexivity.
    + intros Hin. apply list_elem_of_singleton in Hin. discriminate Hin.
    + vm_compute. reflexivity.
    + vm_compute. reflexivity.
Defined.

End DecoratorFacts.

(** ** The registry tools over a catalog *)

Module ToolsMore.
Import JsValue Dto Fs RegistryService RegistryTools Terms Cases MoreTerms.
Import CatalogFacts CatalogOperations DiscoveryFacts.

Lemma getComponentByName_found registries registryName componentName c :
  getComponentByName registries registryName componentName = Some c →
  ∃ registry cs,
    getRegistryByName registries registryName = Some registry ∧
    components registry = Some cs ∧ c ∈ cs ∧ name c = componentName.
Proof.
  unfold getComponentByName.
  destruct (getRegistryByName registries registryName) as [registry|]; [|done].
  destruct (components registry) as [cs|] eqn:Hcs; [|done].
  intros [Hin Hname]%find_present. apply bool_decide_eq_true in Hname.
  by exists registry, cs.
Qed.

(** X20.  The not-found answers are exact.  get_registry answers with its
    not-found text exactly when no registry carries the name, and the docs
    and stories tools answer with theirs exactly when the name pair resolves
    to no component. *)
Theorem not_found_answers_exact registries fs :
  (∀ n, get_registry registries n = respond (registry_not_found_text n)
        ↔ registry_absent registries n)
  ∧ (∀ registryName componentName,
       (get_component_docs registries fs registryName componentName
        = respond (not_found_in_registry registryName componentName)
        ↔ getComponentByName registries registryName componentName = None)
       ∧ (get_component_stories registries fs registryName componentName
          = respond (not_found_in_registry registryName componentName)
          ↔ getComponentByName registries registryName componentName = None)).
Proof.
  split.
  - intros n. split.
    + intros Hanswer. unfold get_registry in Hanswer.
      destruct (getRegistryByName registries n) as [held|] eqn:Hheld.
      * apply respond_inj in Hanswer. unfold nl in Hanswer. simpl in Hanswer.
        discriminate.
      * by apply getRegistryByName_none.
    + intros Habs. unfold get_registry. by rewrite getRegistryByName_absent.
  - intros registryName componentName.
    unfold get_component_docs, get_component_stories.
    destruct (getComponentByName registries registryName componentName) as [c|].
    + split; (split; [|done]).
      * destruct (available (markdownFilePaths c)); intros Heq%respond_inj;
          simpl in Heq; discriminate.
      * destruct (available (storyFilePaths c)); intros Heq%respond_inj;
          simpl in Heq; discriminate.
    + done.
Qed.

Section Host.
Context `{Js.Host}.

Lemma discovered_catalog_components fs workspaceRoot registriesConfig
    registryName componentName c :
  getComponentByName (discoverAndRegisterComponents fs workspaceRoot registriesConfig)
    registryName componentName = Some c →
  ∃ registryConfig,
    registryConfig ∈ registriesConfig ∧
    c ∈ discoverComponents fs (config_components registryConfig) workspaceRoot.
Proof.
  intros (registry & cs & Hreg & Hcs & Hc & _)%getComponentByName_found.
  rewrite discoverAndRegisterComponents_eq in Hreg.
  apply find_present in Hreg as [Hin _].
  apply list_elem_of_fmap in Hin as (registryConfig & -> & Hin).
  exists registryConfig. split; [done|]. simpl in Hcs. by injection Hcs as <-.
Qed.

(** X21.  Over a catalog built by discovery, the docs tool never answers with its
    no-docs message, whatever the disk has become since: a name pair either
    resolves to nothing, and the answer is the not-found text, or resolves
    to a component that was admitted with documentation paths, and the
    answer is the heading with their current contents. *)
Theorem discovered_catalog_always_documented fs workspaceRoot registriesConfig
    later_fs registryName componentName :
  let catalog := discoverAndRegisterComponents fs workspaceRoot registriesConfig in
  let answer := get_component_docs catalog later_fs registryName componentName in
  answer ≠ respond (no_docs_text componentName)
  ∧ (answer = respond (not_found_in_registry registryName componentName)
     ∨ ∃ paths, paths ≠ [] ∧
         answer = respond (docs_text later_fs componentName paths)).
Proof.
  intros catalog answer.
  assert (Hcases :
    answer = respond (not_found_in_registry registryName componentName)
    ∨ ∃ paths, paths ≠ [] ∧ answer = respond (docs_text later_fs componentName paths)).
  { unfold answer, get_component_docs.
    destruct (getComponentByName catalog registryName componentName) as [c|] eqn:Hc;
      [|by left].
    apply discovered_catalog_components in Hc as (registryConfig & _ & Hc).
    apply discoverComponents_elem in Hc as (docs & Hdocs & Hrecord).
    right. exists docs. split; [done|].
    rewrite Hrecord. simpl. by destruct docs. }
  split; [|done].
  destruct Hcases as [->|(paths & _ & ->)]; intros Heq%respond_inj;
    unfold not_found_in_registry, docs_text, no_docs_text in Heq;
    simpl in Heq; discriminate.
Qed.

End Host.

(** X22.  list_components cannot tell an unknown registry from one without
    components: it answers with its no-components message exactly when the
    name resolves to no registry, or to one whose component list is absent
    or empty. *)
Theorem list_components_empty_message registries n :
  list_components registries n = respond (no_components_text n)
  ↔ registry_absent registries n
    ∨ ∃ registry, getRegistryByName registries n = Some registry
                  ∧ default [] (components registry) = [].
Proof.
  unfold list_components, getComponentsByRegistryName.
  destruct (getRegistryByName registries n) as [registry|] eqn:Hreg.
  - destruct (default [] (components registry)) as [|c cs] eqn:Hcs; simpl.
    + split; [|done]. intros _. right. by exists registry.
    + split.
      * intros Heq%respond_inj. unfold no_components_text in Heq.
        simpl in Heq. discriminate.
      * intros [Habs|(r & [= <-] & Hnil)]; [|by rewrite Hcs in Hnil].
        by rewrite (getRegistryByName_absent _ _ Habs) in Hreg.
  - simpl. split; [|done]. intros _. left. by apply getRegistryByName_none.
Qed.

(** X23.  For a name pair the catalog resolves to a component, the stories tool
    answers with the heading followed by the contents of the example files
    when the component has example paths, and with its no-stories message
    exactly when the example-path list is absent or empty. *)
Theorem get_component_stories_outcomes registries fs registryName componentName c :
  getComponentByName registries registryName componentName = Some c →
  let answer := get_component_stories registries fs registryName componentName in
  (∀ paths, storyFilePaths c = Some paths → paths ≠ [] →
            answer = respond (stories_text fs componentName paths))
  ∧ (answer = respond (no_stories_text componentName)
     ↔ storyFilePaths c = None ∨ storyFilePaths c = Some []).
Proof.
  intros Hfound answer. unfold answer, get_component_stories. rewrite Hfound.
  split.
  - intros paths -> Hne. by destruct paths.
  - destruct (storyFilePaths c) as [[|p ps]|]; simpl.
    + split; [by right|done].
    + split; [|by intros [?|?]].
      intros Heq%respond_inj. unfold no_stories_text in Heq. simpl in Heq. discriminate.
    + split; [by left|done].
Qed.

Lemma get_component_stories_outcomes_witness :
  get_component_stories demo_registries Demo.fs "Demo" "Button"
  = respond (stories_text Demo.fs "Button"
               ["/w/src/stories/basic/Button/Button.stories.js"]).
Proof.
  destruct (get_component_stories_outcomes demo_registries Demo.fs "Demo" "Button"
              button eq_refl) as [Hstories _].
  by apply Hstories.
Defined.

End ToolsMore.

(** ** The mock service *)

Module MockToolServiceFacts.
Import MockToolService MoreTerms.

Lemma getUserById_numbered base mockUsers i user :
  numbered_from base mockUsers → mockUsers !! i = Some user →
  find (λ u, bool_decide (user_id u = (Z.of_nat (base + i) + 1)%Z)) mockUsers = Some user.
Proof.
  revert base i. induction mockUsers as [|u us IH]; intros base i Hnum Hi; [done|].
  destruct i as [|i]; simpl in *.
  - injection Hi as ->. rewrite bool_decide_eq_true_2; [done|].
    by apply (Hnum 0).
  - rewrite bool_decide_eq_false_2.
    + replace (base + S i) with (S base + i) by lia. apply IH; [|done].
      intros j v Hj. replace (S base + j) with (base + S j) by lia.
      by apply (Hnum (S j)).
    + rewrite (Hnum 0 u eq_refl). lia.
Qed.

(** X24.  Identifiers stay sequential.  When the users are numbered 1, 2, ... in
    order, as they are initially and after a reset, [createUser] gives the
    new user the next number and keeps the numbering; the new user and every
    earlier user are then found by their identifiers. *)
Theorem createUser_keeps_numbering mockUsers name email :
  numbered_from 0 mockUsers →
  let created := createUser mockUsers name email in
  numbered_from 0 created.2
  ∧ getUserById created.2 (user_id created.1) = Some created.1
  ∧ (∀ user, user ∈ mockUsers → getUserById created.2 (user_id user) = Some user).
Proof.
  intros Hnum created.
  assert (Hnext : numbered_from 0 created.2).
  { intros i user Hi. simpl in Hi.
    apply lookup_app_Some in Hi as [Hi|[Hlen Hi]]; [by apply Hnum|].
    apply list_lookup_singleton_Some in Hi as [Hi <-]. simpl. lia. }
  split; [done|]. split.
  - assert (Hlast : created.2 !! length mockUsers = Some created.1).
    { simpl. rewrite lookup_app_r by done. by rewrite Nat.sub_diag. }
    apply (getUserById_numbered 0 _ _ _ Hnext) in Hlast. simpl in Hlast. done.
  - intros user (i & Hi)%list_elem_of_lookup.
    assert (Hi' : created.2 !! i = Some user) by (simpl; by apply lookup_app_l_Some).
    rewrite (Hnum i user Hi).
    by apply (getUserById_numbered 0 _ _ _ Hnext) in Hi'.
Qed.

Lemma createUser_keeps_numbering_witness :
  getUserById (createUser resetUsers "Dave" "dave@example.com").2 4
  = Some {| user_id := 4; user_name := "Dave"; user_email := "dave@example.com" |}.
Proof.
  refine (proj1 (proj2 (createUser_keeps_numbering resetUsers "Dave" "dave@example.com" _))).
  intros i user Hi.
  destruct i as [|[|[|i]]]; simpl in Hi; try (injection Hi as <-; reflexivity).
  discriminate.
Defined.

End MockToolServiceFacts.

(** ** The further properties on the Demo disk *)

Module MoreCases.
Import JsValue Dto Fs RegistryService RegistryTools Terms Cases MoreTerms.
Import DiscoveryFacts MatchingFacts ToolsMore.

#[local] Existing Instance Js.ascii_host.

Lemma discovered_component_stories_witness :
  storyFilePaths button ≠ Some []
  ∧ default [] (storyFilePaths button) = findStoryFiles Demo.fs "Button" Demo.layout "/w".
Proof.
  apply (discovered_component_stories Demo.fs Demo.layout "/w" button).
  replace (discoverComponents Demo.fs Demo.layout "/w")
    with [button] by (vm_compute; reflexivity).
  left.
Defined.

Lemma findFilesInDirectoryRoot_substring_witness :
  "/w/src/stories/basic/Button/Button.stories.js"
  ∈ findFilesInDirectoryRoot Demo.fs "/w/src/stories/basic/Button" [".stories"].
Proof.
  apply (findFilesInDirectoryRoot_substring Demo.fs "/w/src/stories/basic/Button"
           [".stories"]).
  exists [Demo.file "Button.stories.js"; Demo.dir "assets"],
    (Demo.file "Button.stories.js"), ".stories", "Button", ".js".
  split; [vm_compute; reflexivity|]. split; [left|]. split; [done|].
  split; [left|]. split; [done|]. vm_compute. reflexivity.
Defined.

Lemma not_found_answers_exact_witness :
  registry_absent demo_registries "Nope"
  ∧ getComponentByName demo_registries "Demo" "Card" = None.
Proof.
  destruct (not_found_answers_exact demo_registries Demo.fs) as [Hregistry Hcomponent].
  split.
  - apply Hregistry. vm_compute. reflexivity.
  - apply (Hcomponent "Demo" "Card"). vm_compute. reflexivity.
Defined.

Lemma list_components_empty_message_witness :
  list_components [other_registry] "Other" = respond (no_components_text "Other")
  ∧ list_components demo_registries "Nope" = respond (no_components_text "Nope").
Proof.
  split.
  - apply (list_components_empty_message [other_registry] "Other").
    right. by exists other_registry.
  - apply (list_components_empty_message demo_registries "Nope").
    left. intros r Hr. apply list_elem_of_singleton in Hr as ->. simpl. discriminate.
Defined.

End MoreCases.
